(** * WMDR: UML (XMI) + XSD to GeoJSON JSON-Schema conversion

    A shallow embedding of [convert/generate_geojson_schema.py]
    ([parse_ea_xmi_to_geojson_schema] and its nested helpers) together
    with the properties of its four stages: model extraction, type-hint
    resolution, attribute flattening and schema assembly.

    Conventions.
    - A Python [str] value is the [string] of the bytes of its UTF-8
      encoding.  Equality of strings is equality of their encodings,
      and the separators the converter looks for (the colon, the
      braces, the suffix of [endswith]) are ASCII, so these
      operations read the bytes as they read the characters; [strip]
      removes every character of Unicode white space, whatever the
      length of its encoding.  An optional value
      ([None] or a string, as returned by [elem.get] and [dict.get])
      is an [option string].
    - The lookup tables are dictionaries that are only read by key:
      they are [gmap]s.  A key read from an optional XML attribute can
      be [None], hence the key type [option string] for the tables
      indexed by a class identifier.
    - JSON documents are Python dictionaries whose iteration order is
      the insertion order: association lists updated in place by
      [dict_set].
    - An XML tree is a tree of element nodes, visited in document
      order.  Comment and processing-instruction nodes, whose [tag] is
      not a string, are not part of the model. *)

From Stdlib Require Import ZArith Ascii String.
From stdpp Require Import base option strings list gmap.

Set Warnings "-register-all,-clear-no-such-hyp".

(** ** Strings *)

Module Str.

(** Python truthiness of an optional string: [None] and the empty
    string are false. *)
Definition truthy (o : option string) : bool :=
  match o with
  | Some "" => false
  | Some _ => true
  | None => false
  end.

(** [o == s] for an optional [o] and a string literal [s]. *)
Definition equals (o : option string) (s : string) : bool :=
  match o with
  | Some x => String.eqb x s
  | None => false
  end.

(** [s.endswith(suffix)]: [suffix] is [s] or ends a tail of [s]. *)
Fixpoint endswith (s suffix : string) : bool :=
  String.eqb s suffix ||
  match s with
  | EmptyString => false
  | String _ rest => endswith rest suffix
  end.

(** The text after the first occurrence of [sep], when there is one:
    [s.split(sep, 1)[1]] guarded by [sep in s]. *)
Fixpoint after_first (sep : ascii) (s : string) : option string :=
  match s with
  | EmptyString => None
  | String c rest =>
      if Ascii.eqb c sep then Some rest else after_first sep rest
  end.

(** The characters that [str.strip()] removes, those that
    [str.isspace] accepts, each by the bytes of its UTF-8 encoding:
    U+0009 to U+000D, U+001C to U+0020, U+0085, U+00A0, U+1680,
    U+2000 to U+200A, U+2028, U+2029, U+202F, U+205F and U+3000. *)
Definition whitespace : list (list ascii) :=
  (λ w : list nat, ascii_of_nat <$> w) <$>
    [[9]; [10]; [11]; [12]; [13]; [28]; [29]; [30]; [31]; [32];
     [194; 133]; [194; 160]; [225; 154; 128];
     [226; 128; 128]; [226; 128; 129]; [226; 128; 130]; [226; 128; 131];
     [226; 128; 132]; [226; 128; 133]; [226; 128; 134]; [226; 128; 135];
     [226; 128; 136]; [226; 128; 137]; [226; 128; 138];
     [226; 128; 168]; [226; 128; 169]; [226; 128; 175];
     [226; 129; 159]; [227; 128; 128]]%nat.

(** The rest of [s] after the bytes [w], when [s] starts with them. *)
Fixpoint drop_prefix (w s : list ascii) : option (list ascii) :=
  match w, s with
  | [], _ => Some s
  | b :: w', c :: s' => if Ascii.eqb b c then drop_prefix w' s' else None
  | _ :: _, [] => None
  end.

(** The rest of [s] after its first character, when that character is
    one of [table]. *)
Fixpoint skip_one (table : list (list ascii)) (s : list ascii)
    : option (list ascii) :=
  match table with
  | [] => None
  | w :: table' =>
      match drop_prefix w s with
      | Some r => Some r
      | None => skip_one table' s
      end
  end.

(** The scan of [strip]: characters of [table] are skipped until
    another character, or the end, is met.  Every round removes at
    least one byte, so [length s] rounds are enough for [s]. *)
Fixpoint strip_loop (table : list (list ascii)) (rounds : nat)
    (s : list ascii) : list ascii :=
  match rounds with
  | O => s
  | S rounds' =>
      match skip_one table s with
      | Some r => strip_loop table rounds' r
      | None => s
      end
  end.

Definition lstrip_bytes (table : list (list ascii)) (s : list ascii)
    : list ascii :=
  strip_loop table (length s) s.

Definition lstrip (s : string) : string :=
  string_of_list_ascii (lstrip_bytes whitespace (list_ascii_of_string s)).

(** The scan from the right end reads the bytes, and so every
    encoding, backwards. *)
Definition rstrip (s : string) : string :=
  string_of_list_ascii
    (reverse (lstrip_bytes (reverse <$> whitespace)
                (reverse (list_ascii_of_string s)))).

Definition strip (s : string) : string := lstrip (rstrip s).

End Str.

(** ** XML trees (the part of [lxml.etree] the converter uses) *)

Inductive element : Type :=
  Element {
    tag : string;                   (* Clark notation: "{namespace}local" *)
    attrib : gmap string string;
    text : option string;
    children : list element
  }.

(** [elem.get(key)] *)
Definition get (e : element) (key : string) : option string := attrib e !! key.

(** [elem.iter()]: the element and all its descendants, document order. *)
Fixpoint iter (e : element) : list element :=
  match e with
  | Element _ _ _ cs => e :: flat_map iter cs
  end.

(** [elem.iter()] paired with [getparent()] of each visited element;
    [p] is the parent of [e]. *)
Fixpoint iter_with_parent (p : option element) (e : element)
  : list (option element * element) :=
  match e with
  | Element _ _ _ cs => (p, e) :: flat_map (iter_with_parent (Some e)) cs
  end.

(** [etree.QName(tag).localname]: the tag without its "{namespace}". *)
Definition localname (t : string) : string :=
  match t with
  | String "{" rest => default t (Str.after_first "}" rest)
  | _ => t
  end.

(** [elem.find(".//body")]: the first proper descendant, in document
    order, whose tag is the un-namespaced name [body]. *)
Definition find_body (e : element) : option element :=
  head (filter (λ d, tag d = "body") (flat_map iter (children e))).

Definition XMI_TYPE : string := "{http://www.omg.org/XMI}type".
Definition XMI_ID : string := "{http://www.omg.org/XMI}id".

(** ** Model extraction *)

(** The dictionary stored for one [ownedAttribute]. *)
Record attr : Type := Attr {
  a_name : string;
  a_type : option string;
  a_aggregation : option string;
  a_id : option string;
  a_lower : option string;
  a_upper : option string
}.

(** The lookup tables filled by the two passes over the XMI tree. *)
Record model : Type := Model {
  class_ids : gmap string (option string);
  attributes_by_id : gmap (option string) (list attr);
  inheritance : gmap string string;
  class_names_by_id : gmap (option string) string;
  documentation_by_id : gmap (option string) string
}.

Definition empty_model : model := Model ∅ ∅ ∅ ∅ ∅.

Definition is_class (e : element) : bool :=
  String.eqb (localname (tag e)) "packagedElement" &&
  Str.equals (get e XMI_TYPE) "uml:Class".

(** Body of [for sub in elem] for the class with identifier [class_id]. *)
Definition class_child (class_id : option string) (m : model) (sub : element)
  : model :=
  if String.eqb (localname (tag sub)) "ownedAttribute" then
    match get sub "name" with
    | None => m
    | Some attr_name =>
        let a := {| a_name := attr_name;
                    a_type := get sub "type";
                    a_aggregation := get sub "aggregation";
                    a_id := get sub XMI_ID;
                    a_lower := get sub "lower";
                    a_upper := get sub "upper" |} in
        (* the key was bound to [] when the class was entered *)
        Model (class_ids m)
              (alter (λ l, l ++ [a]) class_id (attributes_by_id m))
              (inheritance m) (class_names_by_id m) (documentation_by_id m)
    end
  else if String.eqb (localname (tag sub)) "ownedComment" then
    match find_body sub with
    | Some body =>
        if Str.truthy (text body) then
          Model (class_ids m) (attributes_by_id m) (inheritance m)
                (class_names_by_id m)
                (<[class_id := Str.strip (default "" (text body))]>
                   (documentation_by_id m))
        else m
    | None => m
    end
  else m.

(** Body of the first [for elem in root.iter()]. *)
Definition class_pass_step (m : model) (elem : element) : model :=
  if is_class elem then
    let class_id := get elem XMI_ID in
    match get elem "name" with
    | Some class_name =>
        if Str.truthy (Some class_name) then
          let m0 :=
            Model (<[class_name := class_id]> (class_ids m))
                  (<[class_id := []]> (attributes_by_id m))
                  (inheritance m)
                  (<[class_id := class_name]> (class_names_by_id m))
                  (documentation_by_id m) in
          foldl (class_child class_id) m0 (children elem)
        else m
    | None => m
    end
  else m.

(** Body of the second [for elem in root.iter()]. *)
Definition generalization_step (m : model) (pe : option element * element)
  : model :=
  let '(parent, elem) := pe in
  if String.eqb (localname (tag elem)) "generalization" then
    let subclass_id :=
      if Str.truthy (get elem "owner") then get elem "owner"
      else match parent with
           | Some p => get p XMI_ID
           | None => get elem "owner"
           end in
    let superclass_id := get elem "general" in
    match subclass_id, superclass_id with
    | Some sub, Some sup =>
        if Str.truthy (Some sub) && Str.truthy (Some sup) then
          Model (class_ids m) (attributes_by_id m)
                (<[sub := sup]> (inheritance m))
                (class_names_by_id m) (documentation_by_id m)
        else m
    | _, _ => m
    end
  else m.

Definition extract_model (root : element) : model :=
  let m1 := foldl class_pass_step empty_model (iter root) in
  foldl generalization_step m1 (iter_with_parent None root).

(** ** Attribute flattening *)

(** [attributes_by_id.get(cid, [])] for a string identifier. *)
Definition own_attributes (m : model) (cid : string) : list attr :=
  default [] (attributes_by_id m !! Some cid).

(** The [while cid and cid not in visited] loop of
    [collect_all_attributes].  [fuel] bounds the number of executions
    of the loop body; [None] means that the bound was reached with the
    loop condition still true. *)
Fixpoint collect_loop (m : model) (fuel : nat) (cid : option string)
    (visited : gset string) (collected : list attr) : option (list attr) :=
  match cid with
  | Some c =>
      if Str.truthy cid && bool_decide (c ∉ visited) then
        match fuel with
        | O => None
        | S fuel' =>
            collect_loop m fuel' (inheritance m !! c) ({[c]} ∪ visited)
                         (collected ++ own_attributes m c)
        end
      else Some collected
  | None => Some collected
  end.

(** [class_ids.get(class_name)] *)
Definition class_id_of (m : model) (class_name : string) : option string :=
  mjoin (class_ids m !! class_name).

Definition collect_all_attributes (m : model) (class_name : string)
  : list attr :=
  default []
    (collect_loop m (S (size (inheritance m))) (class_id_of m class_name) ∅ []).

(** ** Type hints from the XSD *)

(** [t.split(":", 1)[1]] when [t] is truthy and contains ":". *)
Definition strip_prefix (t : option string) : option string :=
  match t with
  | Some s =>
      match Str.after_first ":" s with
      | Some rest => Some rest
      | None => t
      end
  | None => None
  end.

(** Body of [for elem in xsd_tree.iter()]. *)
Definition type_map_step (type_map : gmap string string) (elem : element)
  : gmap string string :=
  if Str.endswith (tag elem) "element" then
    match get elem "name" with
    | Some name =>
        match strip_prefix (get elem "type") with
        | Some t => if Str.truthy (Some t) then <[name := t]> type_map
                    else type_map
        | None => type_map
        end
    | None => type_map
    end
  else type_map.

Definition build_type_map_from_xsd (xsd_root : element) : gmap string string :=
  foldl type_map_step ∅ (iter xsd_root).

(** ** JSON values under construction *)

(** The Python objects reachable from a schema before it is written.
    A dictionary of the static table [xsd_to_json_type] is one shared
    object: every property that got it from [xsd_to_json_type.get]
    refers to the same dictionary, written [PShared k] for the entry of
    key [k].  All other dictionaries are created where they are used. *)
Inductive pyval : Type :=
  | PStr (s : string)
  | PInt (n : Z)
  | PList (l : list pyval)
  | PDict (d : list (string * pyval))
  | PShared (k : string).

(** [key in d] *)
Definition dict_has (key : string) (d : list (string * pyval)) : bool :=
  existsb (λ kv, String.eqb kv.1 key) d.

(** [d.get(key)] *)
Fixpoint dict_get (key : string) (d : list (string * pyval)) : option pyval :=
  match d with
  | [] => None
  | (k, v) :: rest => if String.eqb k key then Some v else dict_get key rest
  end.

(** [d[key] = v]: the value is replaced where the key already is, and
    appended otherwise. *)
Fixpoint dict_set (key : string) (v : pyval) (d : list (string * pyval))
  : list (string * pyval) :=
  match d with
  | [] => [(key, v)]
  | (k, x) :: rest =>
      if String.eqb k key then (k, v) :: rest
      else (k, x) :: dict_set key v rest
  end.

(** The contents of the static table when the run starts. *)
Definition xsd_to_json_type : gmap string (list (string * pyval)) :=
  list_to_map
    [ ("boolean", [("type", PStr "boolean")]);
      ("string", [("type", PStr "string")]);
      ("decimal", [("type", PStr "number")]);
      ("float", [("type", PStr "number")]);
      ("double", [("type", PStr "number")]);
      ("int", [("type", PStr "integer")]);
      ("integer", [("type", PStr "integer")]);
      ("date", [("type", PStr "string"); ("format", PStr "date")]);
      ("dateTime", [("type", PStr "string"); ("format", PStr "date-time")]) ].

(** What [json.dump] sees: shared dictionaries are read in the state
    [tbl] the table has when the document is written. *)
Fixpoint dump (tbl : gmap string (list (string * pyval))) (v : pyval) : pyval :=
  match v with
  | PStr _ | PInt _ => v
  | PList l => PList (map (dump tbl) l)
  | PDict d => PDict (map (λ kv, let '(k, x) := kv in (k, dump tbl x)) d)
  | PShared k => PDict (default [] (tbl !! k))
  end.

(** ** Schema assembly *)

Section Assembly.

Variable m : model.
Variable xsd_type_map : gmap string string.

Definition infer_json_type (a : attr) : pyval :=
  if Str.equals (a_aggregation a) "composite"
     && bool_decide (is_Some (class_names_by_id m !! a_type a)) then
    let ref :=
      PDict [("$ref",
              PStr ("#/$defs/" +:+ (class_names_by_id m !!! a_type a)))] in
    if negb (Str.equals (a_upper a) "1")
    then PDict [("type", PStr "array"); ("items", ref)]
    else ref
  else
    match xsd_type_map !! a_name a with
    | Some xsd_type =>
        let base_type :=
          if bool_decide (is_Some (xsd_to_json_type !! xsd_type))
          then PShared xsd_type
          else PDict [("type", PStr "string")] in
        if negb (Str.equals (a_upper a) "1")
        then PDict [("type", PStr "array"); ("items", base_type)]
        else base_type
    | None => PDict [("type", PStr "string")]
    end.

(** [prop["description"] = doc].  When [prop] is a dictionary of the
    static table the assignment changes the table entry itself. *)
Definition set_description (doc : string) (prop : pyval)
    (tbl : gmap string (list (string * pyval)))
  : pyval * gmap string (list (string * pyval)) :=
  match prop with
  | PDict d => (PDict (dict_set "description" (PStr doc) d), tbl)
  | PShared k => (prop, alter (dict_set "description" (PStr doc)) k tbl)
  | _ => (prop, tbl)
  end.

(** The state of the loop of [attrs_to_json_schema]: the two results
    under construction and the static table. *)
Record assembly : Type := Assembly {
  schema_props : list (string * pyval);
  required : list string;
  table : gmap string (list (string * pyval))
}.

(** [name not in exclude], with [exclude=None] excluding nothing. *)
Definition not_excluded (exclude : option (gset string)) (name : string)
  : bool :=
  match exclude with
  | None => true
  | Some ex => bool_decide (name ∉ ex)
  end.

(** [attr.get("lower") not in (None, "0")] *)
Definition lower_requires (a : attr) : bool :=
  match a_lower a with
  | None => false
  | Some l => negb (String.eqb l "0")
  end.

(** Body of [for attr in attr_list]. *)
Definition attrs_step (exclude : option (gset string)) (st : assembly)
    (a : attr) : assembly :=
  let name := a_name a in
  if Str.truthy (Some name) && not_excluded exclude name then
    let prop := infer_json_type a in
    let doc := documentation_by_id m !! a_id a in
    let '(prop, tbl) :=
      if Str.truthy doc
      then set_description (default "" doc) prop (table st)
      else (prop, table st) in
    Assembly (dict_set name prop (schema_props st))
             (if lower_requires a then required st ++ [name]
              else required st)
             tbl
  else st.

(** [attrs_to_json_schema(attr_list, exclude)], started with the
    static table in state [tbl]. *)
Definition attrs_to_json_schema (attr_list : list attr)
    (exclude : option (gset string))
    (tbl : gmap string (list (string * pyval))) : assembly :=
  foldl (attrs_step exclude) (Assembly [] [] tbl) attr_list.

End Assembly.

(** ** The documents *)

(** Where a document is written: [output_file] itself, or a file of
    the directory [Path(output_file).parent]. *)
Inductive out_path : Type :=
  | OutputFile
  | InBaseDir (file_name : string).

Definition JSON_SCHEMA : pyval :=
  PStr "https://json-schema.org/draft/2020-12/schema".

Definition schema_id (name : string) : pyval :=
  PStr ("https://schemas.wmo.int/wmdr/json-schema/" +:+ name +:+ ".schema.json").

Definition enum_string (s : string) : pyval :=
  PDict [("type", PStr "string"); ("enum", PList [PStr s])].

Definition coordinates : pyval :=
  PDict [("type", PStr "array");
         ("items", PDict [("type", PStr "number")]);
         ("minItems", PInt 2);
         ("maxItems", PInt 3)].

(** The [properties] and [required] entries of the feature collection,
    with the two references [geometry] and [properties] of a feature. *)
Definition feature_collection (geometry_ref properties_ref : string)
  : list (string * pyval) :=
  [ ("properties",
     PDict [("type", enum_string "FeatureCollection");
            ("features",
             PDict [("type", PStr "array");
                    ("items",
                     PDict [("type", PStr "object");
                            ("properties",
                             PDict [("type", enum_string "Feature");
                                    ("geometry",
                                     PDict [("$ref", PStr geometry_ref)]);
                                    ("properties",
                                     PDict [("$ref", PStr properties_ref)])]);
                            ("required",
                             PList [PStr "type"; PStr "geometry";
                                    PStr "properties"])])])]);
    ("required", PList [PStr "type"; PStr "features"]) ].

Definition class_schema (name : string) (props : list (string * pyval))
    (req : list string) : pyval :=
  PDict [("$schema", JSON_SCHEMA);
         ("$id", schema_id name);
         ("title", PStr name);
         ("type", PStr "object");
         ("properties", PDict props);
         ("required", PList (map PStr req))].

Definition wrapper_schema : pyval :=
  PDict ([("$schema", JSON_SCHEMA);
          ("$id", schema_id "FeatureCollection");
          ("title", PStr "ObservingFacility FeatureCollection");
          ("type", PStr "object")]
         ++ feature_collection "geometry.schema.json"
                               "ObservingFacility.schema.json").

Definition geom_schema : pyval :=
  PDict [("$schema", JSON_SCHEMA);
         ("$id", schema_id "geometry");
         ("title", PStr "Geometry");
         ("type", PStr "object");
         ("properties",
          PDict [("type", enum_string "Point"); ("coordinates", coordinates)]);
         ("required", PList [PStr "type"; PStr "coordinates"])].

Definition unified_schema (obs_props : list (string * pyval))
    (obs_required : list string) (equip_props obsrv_props : list (string * pyval))
  : pyval :=
  PDict ([("$schema", JSON_SCHEMA);
          ("$id", schema_id "FeatureCollection");
          ("title", PStr "ObservingFacility FeatureCollection");
          ("type", PStr "object")]
         ++ feature_collection "#/$defs/geometry" "#/$defs/ObservingFacility"
         ++ [("$defs",
              PDict [("geometry",
                      PDict [("type", PStr "object");
                             ("properties",
                              PDict [("type", enum_string "Point");
                                     ("coordinates", coordinates)]);
                             ("required",
                              PList [PStr "type"; PStr "coordinates"])]);
                     ("Equipment",
                      PDict [("type", PStr "object");
                             ("properties", PDict equip_props)]);
                     ("Observation",
                      PDict [("type", PStr "object");
                             ("properties", PDict obsrv_props)]);
                     ("ObservingFacility",
                      PDict [("type", PStr "object");
                             ("properties", PDict obs_props);
                             ("required",
                              PList (map PStr obs_required))])])]).

(** [v[k1][k2]...] *)
Fixpoint get_path (path : list string) (v : pyval) : option pyval :=
  match path with
  | [] => Some v
  | k :: rest =>
      match v with
      | PDict d => dict_get k d ≫= get_path rest
      | _ => None
      end
  end.

(** In-place update [f] of the dictionary [v[k1][k2]...]: every holder
    of the enclosing document sees the change. *)
Fixpoint update_at (path : list string)
    (f : list (string * pyval) → list (string * pyval)) (v : pyval) : pyval :=
  match v with
  | PDict d =>
      match path with
      | [] => PDict (f d)
      | k :: rest =>
          match dict_get k d with
          | Some x => PDict (dict_set k (update_at rest f x) d)
          | None => v
          end
      end
  | _ => v
  end.

Definition array_of_ref (class_name : string) : pyval :=
  PDict [("type", PStr "array");
         ("items", PDict [("$ref", PStr ("#/$defs/" +:+ class_name))])].

(** The two assignments to [obs_defs] that end the unified mode. *)
Definition override_collections (obs_defs : list (string * pyval))
  : list (string * pyval) :=
  let d :=
    if dict_has "equipment" obs_defs
    then dict_set "equipment" (array_of_ref "Equipment") obs_defs
    else obs_defs in
  if dict_has "observation" d
  then dict_set "observation" (array_of_ref "Observation") d
  else d.

(** The three property maps, computed in the order of the source, and
    the state in which they leave the static table. *)
Definition class_assemblies (m : model) (xsd_type_map : gmap string string)
  : assembly * assembly * assembly :=
  let observing_attrs := collect_all_attributes m "ObservingFacility" in
  let equipment_attrs := collect_all_attributes m "Equipment" in
  let observation_attrs := collect_all_attributes m "Observation" in
  let obs :=
    attrs_to_json_schema m xsd_type_map observing_attrs
                         (Some {["geospatialLocation"]}) xsd_to_json_type in
  let equip :=
    attrs_to_json_schema m xsd_type_map equipment_attrs None (table obs) in
  let obsrv :=
    attrs_to_json_schema m xsd_type_map observation_attrs None (table equip) in
  (obs, equip, obsrv).

(** [write_schema_to_file(schema_dict, out_path)] with the static table
    in state [tbl]: the document handed over for serialization. *)
Definition write_schema_to_file (tbl : gmap string (list (string * pyval)))
    (schema_dict : pyval) (path : out_path) : out_path * pyval :=
  (path, dump tbl schema_dict).

(** The whole run, from the two parsed trees to the documents written,
    in the order they are written. *)
Definition parse_ea_xmi_to_geojson_schema (xmi_root xsd_root : element)
    (split_defs : bool) : list (out_path * pyval) :=
  let m := extract_model xmi_root in
  let xsd_type_map := build_type_map_from_xsd xsd_root in
  let '(obs, equip, obsrv) := class_assemblies m xsd_type_map in
  let tbl := table obsrv in
  if split_defs then
    let defs := [("ObservingFacility", obs); ("Equipment", equip);
                 ("Observation", obsrv)] in
    map (λ d : string * assembly,
           write_schema_to_file tbl
             (class_schema d.1 (schema_props d.2) (required d.2))
             (InBaseDir (d.1 +:+ ".schema.json")))
        defs
    ++ [write_schema_to_file tbl wrapper_schema
          (InBaseDir "FeatureCollection.schema.json");
        write_schema_to_file tbl geom_schema
          (InBaseDir "geometry.schema.json")]
  else
    let schema :=
      unified_schema (schema_props obs) (required obs)
                     (schema_props equip) (schema_props obsrv) in
    let schema :=
      update_at ["$defs"; "ObservingFacility"; "properties"]
                override_collections schema in
    [write_schema_to_file tbl schema OutputFile].

(** ** Notions used to state the properties *)

(** The identifiers for which the loop body runs, in order, when the
    loop is entered with [cid] and [visited]. *)
Inductive walk (inh : gmap string string)
  : gset string → option string → list string → Prop :=
  | walk_stop visited cid :
      Str.truthy cid = false ∨ (∃ c, cid = Some c ∧ c ∈ visited) →
      walk inh visited cid []
  | walk_step visited c chain :
      Str.truthy (Some c) = true →
      c ∉ visited →
      walk inh ({[c]} ∪ visited) (inh !! c) chain →
      walk inh visited (Some c) (c :: chain).

(** The inheritance chain that starts at [c]: each identifier is
    followed by its recorded superclass, no identifier occurs twice,
    and the last one has no recorded (non-empty) superclass or its
    superclass is already in the chain. *)
Definition superclass_chain (inh : gmap string string) (c : string)
    (chain : list string) : Prop :=
  head chain = Some c ∧
  NoDup chain ∧
  (∀ i a b, chain !! i = Some a → chain !! S i = Some b → inh !! a = Some b) ∧
  ∃ l, last chain = Some l ∧
       (Str.truthy (inh !! l) = false ∨ ∃ d, inh !! l = Some d ∧ d ∈ chain).

(** The flattening contract as the specification words it: a registered
    class name yields the class's own attributes, then those of the
    chain of its superclasses. *)
Definition flattening_as_specified (m : model) : Prop :=
  ∀ class_name cid,
    class_ids m !! class_name = Some cid →
    ∃ inherited,
      collect_all_attributes m class_name =
      default [] (attributes_by_id m !! cid) ++ inherited.

(** Construction of test trees. *)
Definition node (t : string) (attrs : list (string * string))
    (cs : list element) : element :=
  Element t (list_to_map attrs) None cs.

Definition uml_class (attrs : list (string * string)) (cs : list element)
  : element :=
  node "packagedElement" ((XMI_TYPE, "uml:Class") :: attrs) cs.

(** A class without [xmi:id] that owns one attribute. *)
Definition xmi_class_without_id : element :=
  node "{http://www.omg.org/XMI}XMI" []
    [uml_class [("name", "Station")]
       [node "ownedAttribute" [("name", "height")] []]].

(** Two classes that are each other's superclass. *)
Definition xmi_cyclic : element :=
  node "{http://www.omg.org/XMI}XMI" []
    [uml_class [(XMI_ID, "A"); ("name", "Equipment")]
       [node "ownedAttribute" [("name", "serialNumber")] [];
        node "generalization" [("general", "B")] []];
     uml_class [(XMI_ID, "B"); ("name", "Instrument")]
       [node "ownedAttribute" [("name", "model")] [];
        node "generalization" [("general", "A")] []]].

(** A type name without its namespace prefix: what follows the first
    ":" when there is one. *)
Definition unprefixed (ty : string) : string :=
  default ty (Str.after_first ":" ty).

(** The element [e] is an [element] declaration of [name] with type
    [t] (prefix removed). *)
Definition declares (e : element) (name t : string) : Prop :=
  localname (tag e) = "element" ∧
  get e "name" = Some name ∧
  ∃ ty, get e "type" = Some ty ∧ t = unprefixed ty.

(** The type map as the specification words it: one entry for each
    declaration that carries a name and a type. *)
Definition type_map_as_specified (xsd_root : element) : Prop :=
  ∀ name t,
    build_type_map_from_xsd xsd_root !! name = Some t ↔
    ∃ e, e ∈ iter xsd_root ∧ declares e name t.

(** Only [element] declarations have a tag that ends with "element". *)
Definition element_tags_exact (xsd_root : element) : bool :=
  forallb (λ e, implb (Str.endswith (tag e) "element")
                      (String.eqb (localname (tag e)) "element"))
          (iter xsd_root).

(** The entry that the XSD element [e] writes into the type map. *)
Definition type_hint (e : element) : option (string * string) :=
  if Str.endswith (tag e) "element" then
    name ← get e "name";
    t ← strip_prefix (get e "type");
    if Str.truthy (Some t) then Some (name, t) else None
  else None.

(** The hint of [e] for the attribute name [name]. *)
Definition hint_for (name : string) (e : element) : option string :=
  '(n, t) ← type_hint e; if decide (n = name) then Some t else None.

(** An [element] declaration whose type attribute is empty. *)
Definition xsd_untyped_declaration : element :=
  node "{http://www.w3.org/2001/XMLSchema}element"
    [("name", "elevation"); ("type", "")] [].

Definition xsd_empty_type : element :=
  node "{http://www.w3.org/2001/XMLSchema}schema" []
    [xsd_untyped_declaration].

(** A small schema: two declarations of the same name, a declaration
    without type and a complex type. *)
Definition xsd_sample : element :=
  node "{http://www.w3.org/2001/XMLSchema}schema" []
    [node "{http://www.w3.org/2001/XMLSchema}element"
       [("name", "elevation"); ("type", "xs:string")] [];
     node "{http://www.w3.org/2001/XMLSchema}element"
       [("name", "observation"); ("type", "xs:string")] [];
     node "{http://www.w3.org/2001/XMLSchema}complexType"
       [("name", "StationType")]
       [node "{http://www.w3.org/2001/XMLSchema}element"
          [("name", "elevation"); ("type", "xs:float")] [];
        node "{http://www.w3.org/2001/XMLSchema}element"
          [("name", "remark")] []]].

(** A class element that gets registered: a [uml:Class] packaged
    element with a non-empty name. *)
Definition is_named_class (e : element) : bool :=
  is_class e && Str.truthy (get e "name").

(** The documentation text that a child of a class element
    contributes: for an [ownedComment], the stripped text of the first
    nested [body], when that text is not empty. *)
Definition comment_text (sub : element) : option string :=
  if String.eqb (localname (tag sub)) "ownedComment" then
    body ← find_body sub;
    if Str.truthy (text body) then Str.strip <$> text body else None
  else None.

(** The documentation table as the specification words it: the first
    comment of a class is recorded. *)
Definition documentation_as_specified (xmi_root : element) : Prop :=
  ∀ cls,
    cls ∈ iter xmi_root →
    is_named_class cls = true →
    documentation_by_id (extract_model xmi_root) !! get cls XMI_ID
    = head (omap comment_text (children cls)).

Definition comment (body_text : string) : element :=
  node "ownedComment" [] [Element "body" ∅ (Some body_text) []].

(** A class with two comments. *)
Definition facility_two_comments : element :=
  uml_class [(XMI_ID, "F"); ("name", "ObservingFacility")]
    [comment "  An observing facility. ";
     node "ownedAttribute" [(XMI_ID, "F.name"); ("name", "name")] [];
     comment "Superseded note."].

Definition xmi_two_comments : element :=
  node "{http://www.omg.org/XMI}XMI" [] [facility_two_comments].

(** The attribute takes part in a property map built with [exclude]. *)
Definition included (exclude : option (gset string)) (a : attr) : bool :=
  Str.truthy (Some (a_name a)) && not_excluded exclude (a_name a).

(** The two readings of an [upper] bound as "single-valued": the
    specification's (absent or "1") and the comparison made by
    [infer_json_type]. *)
Definition single_valued_as_specified (a : attr) : bool :=
  match a_upper a with
  | None => true
  | Some u => String.eqb u "1"
  end.

Definition single_valued (a : attr) : bool := Str.equals (a_upper a) "1".

(** A fragment, or the array of it. *)
Definition with_multiplicity (single : bool) (item : pyval) : pyval :=
  if single then item else PDict [("type", PStr "array"); ("items", item)].

(** The composite-reference branch and its fragment. *)
Definition is_composite_reference (m : model) (a : attr) : bool :=
  Str.equals (a_aggregation a) "composite"
  && bool_decide (is_Some (class_names_by_id m !! a_type a)).

Definition reference_fragment (m : model) (a : attr) : pyval :=
  PDict [("$ref", PStr ("#/$defs/" +:+ (class_names_by_id m !!! a_type a)))].

(** The fragment of the XSD-primitive branch. *)
Definition primitive_fragment (xsd_type : string) : pyval :=
  if bool_decide (is_Some (xsd_to_json_type !! xsd_type))
  then PShared xsd_type
  else PDict [("type", PStr "string")].

(** Property derivation wraps by multiplicity, in both branches, when
    "single-valued" is read as [single]. *)
Definition derivation_wraps_by (single : attr → bool) (m : model)
    (xsd_type_map : gmap string string) : Prop :=
  ∀ a,
    (is_composite_reference m a = true →
     infer_json_type m xsd_type_map a
     = with_multiplicity (single a) (reference_fragment m a)) ∧
    (is_composite_reference m a = false →
     ∀ xsd_type,
       xsd_type_map !! a_name a = Some xsd_type →
       infer_json_type m xsd_type_map a
       = with_multiplicity (single a) (primitive_fragment xsd_type)).

(** An attribute without multiplicity bounds. *)
Definition plain_attribute (name : string) : attr :=
  Attr name None None None None None.

(** The required list as the specification words it: membership of an
    included attribute's name is decided by that attribute's own
    [lower] bound. *)
Definition required_as_specified (m : model)
    (xsd_type_map : gmap string string) (attr_list : list attr)
    (exclude : option (gset string)) : Prop :=
  ∀ a,
    a ∈ attr_list →
    included exclude a = true →
    a_name a ∈ required (attrs_to_json_schema m xsd_type_map attr_list
                           exclude xsd_to_json_type)
    ↔ lower_requires a = true.

(** An attribute declared twice, as a subclass followed by its
    superclass would: mandatory first, optional second. *)
Definition redeclared_attribute : list attr :=
  [Attr "name" None None None (Some "1") (Some "1");
   Attr "name" None None None (Some "0") (Some "1")].

(** The property stored for [a], and the static table afterwards, when
    [a] is processed with the table in state [tbl]. *)
Definition property_of (m : model) (xsd_type_map : gmap string string)
    (a : attr) (tbl : gmap string (list (string * pyval)))
  : pyval * gmap string (list (string * pyval)) :=
  let doc := documentation_by_id m !! a_id a in
  if Str.truthy doc
  then set_description (default "" doc) (infer_json_type m xsd_type_map a) tbl
  else (infer_json_type m xsd_type_map a, tbl).

(** A written fragment has a [description], on itself or on its
    [items]. *)
Definition carries_description (frag : pyval) : bool :=
  match frag with
  | PDict d =>
      dict_has "description" d ||
      match dict_get "items" d with
      | Some (PDict items) => dict_has "description" items
      | _ => false
      end
  | _ => false
  end.

(** The property fragments of a written document: the values of
    [properties] in a file of the split mode, and the values of the
    [properties] of a definition in the unified document. *)
Definition emitted_fragment (split_defs : bool) (doc frag : pyval) : Prop :=
  if split_defs
  then ∃ name, get_path ["properties"; name] doc = Some frag
  else ∃ cls name, get_path ["$defs"; cls; "properties"; name] doc = Some frag.

(** No attribute of the model has the identifier of a registered
    class. *)
Definition attribute_ids_distinct (m : model) : bool :=
  forallb
    (λ entry : option string * list attr,
       forallb (λ a, bool_decide (class_names_by_id m !! a_id a = None))
               entry.2)
    (map_to_list (attributes_by_id m)).

(** The class names and exclusion sets of the three property maps. *)
Definition schema_classes : list (string * option (gset string)) :=
  [("ObservingFacility", Some {["geospatialLocation"]});
   ("Equipment", None);
   ("Observation", None)].

(** Every identifier with recorded documentation is the identifier of
    a registered class. *)
Definition documented_classes (m : model) : Prop :=
  ∀ k, is_Some (documentation_by_id m !! k) →
       is_Some (class_names_by_id m !! k).

(** The document of the unified mode, as written. *)
Definition unified_document (tbl : gmap string (list (string * pyval)))
    (obs equip obsrv : assembly) : pyval :=
  dump tbl
    (update_at ["$defs"; "ObservingFacility"; "properties"]
       override_collections
       (unified_schema (schema_props obs) (required obs)
                       (schema_props equip) (schema_props obsrv))).

(** A small model: a documented facility with a scalar attribute, its
    location, a collection of equipment and a scalar [observation];
    equipment that inherits from a base class. *)
Definition xmi_sample : element :=
  node "{http://www.omg.org/XMI}XMI" []
    [uml_class [(XMI_ID, "OF"); ("name", "ObservingFacility")]
       [comment "A place where observations are made.";
        node "ownedAttribute"
          [(XMI_ID, "OF.name"); ("name", "name"); ("lower", "1");
           ("upper", "1")] [];
        node "ownedAttribute"
          [(XMI_ID, "OF.loc"); ("name", "geospatialLocation");
           ("aggregation", "composite")] [];
        node "ownedAttribute"
          [(XMI_ID, "OF.eq"); ("name", "equipment");
           ("aggregation", "composite"); ("type", "EQ"); ("upper", "*")] [];
        node "ownedAttribute"
          [(XMI_ID, "OF.obs"); ("name", "observation"); ("upper", "1")] []];
     uml_class [(XMI_ID, "EQ"); ("name", "Equipment")]
       [node "ownedAttribute"
          [(XMI_ID, "EQ.sn"); ("name", "serialNumber"); ("lower", "0");
           ("upper", "1")] [];
        node "ownedAttribute"
          [(XMI_ID, "EQ.host"); ("name", "facility");
           ("aggregation", "composite"); ("type", "OF"); ("upper", "1")] [];
        node "generalization" [("general", "BASE")] []];
     uml_class [(XMI_ID, "BASE"); ("name", "Base")]
       [node "ownedAttribute"
          [(XMI_ID, "BASE.elev"); ("name", "elevation"); ("upper", "1")] []]].

(** A model in which an attribute has the identifier of a documented
    class, and type hints for its attributes. *)
Definition xmi_shared_identifier : element :=
  node "{http://www.omg.org/XMI}XMI" []
    [uml_class [(XMI_ID, "EQ"); ("name", "Equipment")]
       [comment "An instrument.";
        node "ownedAttribute"
          [(XMI_ID, "EQ"); ("name", "serialNumber"); ("upper", "1")] [];
        node "ownedAttribute"
          [(XMI_ID, "EQ.model"); ("name", "model"); ("upper", "1")] []]].

Definition xsd_strings : element :=
  node "{http://www.w3.org/2001/XMLSchema}schema" []
    [node "{http://www.w3.org/2001/XMLSchema}element"
       [("name", "serialNumber"); ("type", "xs:string")] [];
     node "{http://www.w3.org/2001/XMLSchema}element"
       [("name", "model"); ("type", "xs:string")] []].


(** The document written to the file of [file_name], if any. *)
Definition written_to (file_name : string)
    (written : list (out_path * pyval)) : option pyval :=
  snd <$> List.find (λ w, match w.1 with
                          | InBaseDir f => String.eqb f file_name
                          | OutputFile => false
                          end) written.


(** ** Notions used to state further properties of extraction *)

(** The record that a child of a class element contributes to the
    attribute list of the class. *)
Definition attribute_record (sub : element) : option attr :=
  if String.eqb (localname (tag sub)) "ownedAttribute" then
    attr_name ← get sub "name";
    Some {| a_name := attr_name;
            a_type := get sub "type";
            a_aggregation := get sub "aggregation";
            a_id := get sub XMI_ID;
            a_lower := get sub "lower";
            a_upper := get sub "upper" |}
  else None.

(** What a visited element writes into [class_ids],
    [class_names_by_id] and [attributes_by_id]. *)
Definition class_ids_entry (e : element) : option (string * option string) :=
  if is_named_class e then
    class_name ← get e "name"; Some (class_name, get e XMI_ID)
  else None.

Definition class_names_entry (e : element)
  : option (option string * string) :=
  if is_named_class e then
    class_name ← get e "name"; Some (get e XMI_ID, class_name)
  else None.

Definition attributes_entry (e : element)
  : option (option string * list attr) :=
  if is_named_class e
  then Some (get e XMI_ID, omap attribute_record (children e))
  else None.

(** The element [e], met under [parent], is a generalization that
    makes [sup] the superclass of [sub]: [sup] is its non-empty
    [general], and [sub] is its non-empty [owner] or, without one, the
    non-empty identifier of [parent]. *)
Definition is_generalization (parent : option element) (e : element)
    (sub sup : string) : Prop :=
  localname (tag e) = "generalization" ∧
  get e "general" = Some sup ∧ sup ≠ "" ∧ sub ≠ "" ∧
  (get e "owner" = Some sub ∨
   Str.truthy (get e "owner") = false ∧
   ∃ p, parent = Some p ∧ get p XMI_ID = Some sub).

(** The edge that a visited element writes into [inheritance]. *)
Definition generalization_edge (pe : option element * element)
  : option (string * string) :=
  let '(parent, e) := pe in
  if String.eqb (localname (tag e)) "generalization" then
    let subclass_id :=
      if Str.truthy (get e "owner") then get e "owner"
      else match parent with
           | Some p => get p XMI_ID
           | None => get e "owner"
           end in
    sub ← subclass_id;
    sup ← get e "general";
    if Str.truthy (Some sub) && Str.truthy (Some sup)
    then Some (sub, sup) else None
  else None.

(** The entry for the key [k] among optional key-value entries. *)
Definition entry_for {A K V : Type} `{EqDecision K} (f : A → option (K * V))
    (k : K) (a : A) : option V :=
  '(k', v) ← f a; if decide (k' = k) then Some v else None.

(** Induction on XML trees: a property that holds for an element as
    soon as it holds for its children holds for every element. *)
Fixpoint element_tree_ind (P : element → Prop)
    (step : ∀ t a x cs, Forall P cs → P (Element t a x cs))
    (e : element) : P e :=
  match e with
  | Element t a x cs =>
      step t a x cs
        ((fix children_ind (l : list element) : Forall P l :=
            match l with
            | [] => List.Forall_nil P
            | c :: l' =>
                List.Forall_cons P c l' (element_tree_ind P step c)
                                 (children_ind l')
            end) cs)
  end.

(** Two classes of the same identifier, and a generalization that
    names its subclass by [owner]. *)
Definition xmi_reused_identifier : element :=
  node "{http://www.omg.org/XMI}XMI" []
    [uml_class [(XMI_ID, "K"); ("name", "Equipment")]
       [node "ownedAttribute" [("name", "serialNumber")] [];
        node "ownedAttribute" [] [];
        node "ownedAttribute" [("name", "model"); ("lowerValue", "1")] []];
     uml_class [(XMI_ID, "K"); ("name", "Sensor")]
       [node "ownedAttribute" [("name", "range")] []];
     node "packagedElement" [("name", "Unit")] [];
     uml_class [(XMI_ID, "N")] [];
     node "generalization" [("owner", "K"); ("general", "Z")] []].

(** The three class tables agree on what is registered. *)
Definition registration_consistent (m : model) : Prop :=
  (∀ cid, is_Some (class_names_by_id m !! cid)
          ↔ is_Some (attributes_by_id m !! cid)) ∧
  (∀ class_name cid,
     class_ids m !! class_name = Some cid →
     class_name ≠ "" ∧ is_Some (attributes_by_id m !! cid)) ∧
  (∀ cid class_name,
     class_names_by_id m !! cid = Some class_name →
     class_name ≠ "" ∧ is_Some (class_ids m !! class_name)).

(** ** Notions used to state further properties of the type hints *)

(** The element [e] writes the entry [name ↦ t] into the type map:
    its tag ends with "element", it carries [name], and [t] is its
    type without prefix, which is not empty. *)
Definition contributes (e : element) (name t : string) : Prop :=
  Str.endswith (tag e) "element" = true ∧
  get e "name" = Some name ∧
  ∃ ty, get e "type" = Some ty ∧ t = unprefixed ty ∧ t ≠ "".

(** A schema with an element of another vocabulary whose tag ends with
    "element", and types with several or no separators. *)
Definition xsd_foreign : element :=
  node "{http://www.w3.org/2001/XMLSchema}schema" []
    [node "{urn:example}datelement"
       [("name", "station"); ("type", "a:b:c")] [];
     node "{http://www.w3.org/2001/XMLSchema}element"
       [("name", "height"); ("type", "decimal")] [];
     node "{http://www.w3.org/2001/XMLSchema}element"
       [("name", "width"); ("type", "xs:")] [];
     node "{http://www.w3.org/2001/XMLSchema}attribute"
       [("name", "unit"); ("type", "xs:string")] []].

(** ** Models used to illustrate further properties *)

(** A model given by its tables: [Sensor] inherits from [Equipment],
    whose superclass [Asset] is not registered. *)
Definition model_two_levels : model :=
  {| class_ids := {["Sensor" := Some "S"; "Equipment" := Some "E"]};
     attributes_by_id :=
       {[Some "S" := [plain_attribute "range"];
         Some "E" := [plain_attribute "serialNumber"]]};
     inheritance := {["S" := "E"; "E" := "Asset"]};
     class_names_by_id := {[Some "S" := "Sensor"; Some "E" := "Equipment"]};
     documentation_by_id := ∅ |}.

(** ** Notions used to state further properties of assembly *)

(** The keys of a dictionary, in order. *)
Definition keys (d : list (string * pyval)) : list string := map fst d.

(** The [description] entry that the documentation of the identifier of
    [a] adds to a fresh fragment. *)
Definition description_field (m : model) (a : attr)
  : list (string * pyval) :=
  match documentation_by_id m !! a_id a with
  | Some doc => if Str.truthy (Some doc) then [("description", PStr doc)]
                else []
  | None => []
  end.

(** Every dictionary of [tbl] is the dictionary of [tbl0] for the same
    key, up to its [description]. *)
Definition same_up_to_description
    (tbl0 tbl : gmap string (list (string * pyval))) : Prop :=
  ∀ k,
    match tbl0 !! k, tbl !! k with
    | Some d0, Some d =>
        ∀ key, key ≠ "description" → dict_get key d = dict_get key d0
    | None, None => True
    | _, _ => False
    end.

(** The file of a class in split mode. *)
Definition class_file (cls : string) : out_path :=
  InBaseDir (cls +:+ ".schema.json").

(** A class redeclares an attribute of its superclass with another
    type. *)
Definition xmi_redeclared : element :=
  node "{http://www.omg.org/XMI}XMI" []
    [uml_class [(XMI_ID, "EQ"); ("name", "Equipment")]
       [node "ownedAttribute"
          [(XMI_ID, "EQ.host"); ("name", "host");
           ("aggregation", "composite"); ("type", "OF"); ("lower", "1");
           ("upper", "1")] [];
        node "ownedAttribute"
          [(XMI_ID, "EQ.note"); ("name", "note"); ("upper", "*")] [];
        node "generalization" [("general", "BASE")] []];
     uml_class [(XMI_ID, "BASE"); ("name", "Base")]
       [node "ownedAttribute"
          [(XMI_ID, "BASE.host"); ("name", "host"); ("upper", "1")] []];
     uml_class [(XMI_ID, "OF"); ("name", "ObservingFacility")] []].

(** The path of the reference of a feature slot in the envelope. *)
Definition feature_ref (slot : string) : list string :=
  ["properties"; "features"; "items"; "properties"; slot; "$ref"].

(** A comment whose body has only white space, after a comment with
    text. *)
Definition xmi_blank_comment : element :=
  node "{http://www.omg.org/XMI}XMI" []
    [uml_class [(XMI_ID, "EQ"); ("name", "Equipment")]
       [comment "An instrument."; comment "   "]].

(** ** White space at the ends of a text *)

(** The text starts with a white-space character. *)
Definition starts_with_space (s : string) : bool :=
  bool_decide
    (is_Some (Str.skip_one Str.whitespace (list_ascii_of_string s))).

(** The text ends with a white-space character. *)
Definition ends_with_space (s : string) : bool :=
  bool_decide
    (is_Some (Str.skip_one (reverse <$> Str.whitespace)
                (reverse (list_ascii_of_string s)))).

(** A text made of characters of [table] only. *)
Inductive blank (table : list (list ascii)) : list ascii → Prop :=
  | blank_nil : blank table []
  | blank_cons w s : w ∈ table → blank table s → blank table (w ++ s).

(** No entry of [table] is the start of another one. *)
Definition prefix_free (table : list (list ascii)) : bool :=
  forallb (λ w1,
    forallb (λ w2,
      match Str.drop_prefix w2 w1 with
      | Some (_ :: _) => false
      | _ => true
      end) table) table.

(** ** References and descriptions as the specification words them *)


(** The fragment written for an attribute carries a description only
    when the identifier of that attribute is a key of the
    documentation table. *)
Definition description_follows_key (xmi_root xsd_root : element) : Prop :=
  let m := extract_model xmi_root in
  ∀ cls exclude a frag,
    (cls, exclude) ∈ schema_classes →
    a ∈ collect_all_attributes m cls →
    included exclude a = true →
    (written_to (cls +:+ ".schema.json")
       (parse_ea_xmi_to_geojson_schema xmi_root xsd_root true)
     ≫= get_path ["properties"; a_name a]) = Some frag →
    carries_description frag = true →
    is_Some (documentation_by_id m !! a_id a).

(** No attribute that has an identifier has the identifier of a
    registered class: attributes without an identifier are left out of
    the comparison. *)
Definition present_ids_distinct (m : model) : bool :=
  forallb
    (λ entry : option string * list attr,
       forallb (λ a, match a_id a with
                     | Some i =>
                         bool_decide (class_names_by_id m !! Some i = None)
                     | None => true
                     end)
               entry.2)
    (map_to_list (attributes_by_id m)).

(** The three parts of the statement on descriptions, with the
    identifiers compared where they are present. *)
Definition descriptions_as_specified (xmi_root xsd_root : element) : Prop :=
  let m := extract_model xmi_root in
  description_follows_key xmi_root xsd_root ∧
  documented_classes m ∧
  (present_ids_distinct m = true →
   ∀ split_defs path doc frag,
     (path, doc)
       ∈ parse_ea_xmi_to_geojson_schema xmi_root xsd_root split_defs →
     emitted_fragment split_defs doc frag →
     carries_description frag = false).

(** A documented class without identifier, and an attribute without
    identifier in another class. *)
Definition xmi_without_identifiers : element :=
  node "{http://www.omg.org/XMI}XMI" []
    [uml_class [("name", "Platform")] [comment "A platform."];
     uml_class [(XMI_ID, "EQ"); ("name", "Equipment")]
       [node "ownedAttribute" [("name", "remark"); ("upper", "1")] []]].

(** * Properties *)

(** ** Attribute flattening *)

Lemma walk_exists (inh : gmap string string) (n : nat) :
  ∀ visited cid,
    size (dom inh ∖ visited) < n →
    ∃ chain, walk inh visited cid chain ∧ length chain ≤ n.
Proof.
  induction n as [|n IH]; intros visited cid Hn; [lia|].
  destruct cid as [c|]; [|exists []; split; [constructor; by left | simpl; lia]].
  destruct (Str.truthy (Some c)) eqn:Ht;
    [|exists []; split; [constructor; by left | simpl; lia]].
  destruct (decide (c ∈ visited)) as [Hin|Hout];
    [exists []; split; [constructor; right; eauto | simpl; lia]|].
  destruct (inh !! c) as [d|] eqn:Hd.
  - destruct (IH ({[c]} ∪ visited) (Some d)) as (chain & Hw & Hl).
    + assert (dom inh ∖ ({[c]} ∪ visited) ⊂ dom inh ∖ visited) as Hsub.
      { assert (c ∈ dom inh) as Hc by (apply elem_of_dom; eauto).
        split.
        - intros x. rewrite !elem_of_difference, elem_of_union. tauto.
        - intros Hsub. specialize (Hsub c).
          rewrite !elem_of_difference, elem_of_union, elem_of_singleton in Hsub.
          tauto. }
      apply subset_size in Hsub. lia.
    + exists (c :: chain). split; [|simpl; lia].
      constructor; [done..|]. by rewrite Hd.
  - exists [c]. split; [|simpl; lia].
    constructor; [done..|]. rewrite Hd. constructor. by left.
Qed.

Lemma walk_collect_loop (m : model) visited cid chain :
  walk (inheritance m) visited cid chain →
  ∀ fuel collected,
    collect_loop m fuel cid visited collected =
    if decide (length chain ≤ fuel)
    then Some (collected ++ flat_map (own_attributes m) chain)
    else None.
Proof.
  induction 1 as [visited cid Hstop | visited c chain Ht Hout _ IH];
    intros fuel collected.
  - case_decide; [|simpl in *; lia].
    simpl. rewrite app_nil_r.
    destruct cid as [c|]; [|by destruct fuel].
    destruct Hstop as [Hf | (c' & [= <-] & Hin)].
    + destruct fuel; simpl in *; by rewrite Hf.
    + destruct fuel; simpl; rewrite bool_decide_false by tauto;
        by rewrite andb_false_r.
  - destruct fuel as [|fuel]; simpl collect_loop; simpl in Ht;
      rewrite Ht, bool_decide_true by done; simpl andb; cbv iota.
    + case_decide; [simpl in *; lia | done].
    + rewrite IH. simpl length.
      repeat case_decide; try lia; [|done].
      simpl. by rewrite app_assoc.
Qed.

Lemma walk_fresh inh visited cid chain :
  walk inh visited cid chain → ∀ x, x ∈ chain → x ∉ visited.
Proof.
  induction 1 as [|visited c chain _ Hout _ IH]; intros x Hx.
  - by apply elem_of_nil in Hx.
  - apply elem_of_cons in Hx as [->|Hx]; [done|].
    specialize (IH x Hx). set_solver.
Qed.

Lemma walk_NoDup inh visited cid chain :
  walk inh visited cid chain → NoDup chain.
Proof.
  induction 1 as [|visited c chain _ _ Hw IH]; constructor; [|done].
  intros Hin. apply (walk_fresh _ _ _ _ Hw) in Hin. set_solver.
Qed.

Lemma walk_head inh visited c chain :
  walk inh visited (Some c) chain →
  Str.truthy (Some c) = true → c ∉ visited →
  head chain = Some c.
Proof.
  intros Hw Ht Hout.
  inversion Hw as [? ? Hstop|]; subst; [|done].
  destruct Hstop as [Hf | (c' & Heq & Hin)]; [congruence|].
  by injection Heq as <-.
Qed.

Lemma walk_cons_inv inh visited cid c chain :
  walk inh visited cid (c :: chain) → cid = Some c.
Proof. by inversion 1. Qed.

Lemma walk_links inh visited cid chain :
  walk inh visited cid chain →
  ∀ i a b, chain !! i = Some a → chain !! S i = Some b → inh !! a = Some b.
Proof.
  induction 1 as [|visited c chain _ _ Hw IH]; intros i a b Ha Hb; [done|].
  destruct i as [|i]; simpl in *.
  - injection Ha as <-.
    destruct chain as [|b' chain]; [done|].
    injection Hb as ->. by apply walk_cons_inv in Hw.
  - by apply (IH i).
Qed.

Lemma walk_last inh visited cid chain l :
  walk inh visited cid chain →
  last chain = Some l →
  Str.truthy (inh !! l) = false ∨
  ∃ d, inh !! l = Some d ∧ (d ∈ chain ∨ d ∈ visited).
Proof.
  induction 1 as [|visited c chain _ _ Hw IH]; intros Hl; [done|].
  destruct chain as [|c' chain].
  - injection Hl as <-.
    inversion Hw as [? ? [Hf | (d & Hd & Hin)]|]; subst; [by left|].
    right. exists d. split; [done|]. set_solver.
  - rewrite last_cons_cons in Hl.
    destruct (IH Hl) as [Hf | (d & Hd & Hin)]; [by left|].
    right. exists d. split; [done|]. set_solver.
Qed.

Lemma walk_from_start (m : model) (cid : option string) :
  ∃ chain,
    walk (inheritance m) ∅ cid chain ∧
    length chain ≤ S (size (inheritance m)).
Proof.
  apply walk_exists.
  rewrite <- (size_dom (inheritance m)).
  apply Nat.lt_succ_r, subseteq_size.
  intros x. rewrite elem_of_difference. tauto.
Qed.

Lemma walk_collect_all_attributes (m : model) (class_name : string) chain :
  walk (inheritance m) ∅ (class_id_of m class_name) chain →
  length chain ≤ S (size (inheritance m)) →
  collect_all_attributes m class_name = flat_map (own_attributes m) chain.
Proof.
  intros Hw Hl. unfold collect_all_attributes.
  rewrite (walk_collect_loop _ _ _ _ Hw). by rewrite decide_True.
Qed.

(** C6. Attribute flattening terminates for every model, cyclic
    inheritance included: the loop body runs once for each identifier
    of a duplicate-free sequence [visits] of at most
    [size inheritance + 1] identifiers and then the loop ends normally.
    With a bound of [length visits] or more executions of the body the
    loop returns the flattened list, which is the list of the attributes
    of the visited identifiers; with a smaller bound it is cut short. *)
Theorem collect_all_attributes_terminates (m : model) (class_name : string) :
  ∃ visits : list string,
    NoDup visits ∧
    length visits ≤ S (size (inheritance m)) ∧
    collect_all_attributes m class_name
      = flat_map (own_attributes m) visits ∧
    ∀ fuel,
      collect_loop m fuel (class_id_of m class_name) ∅ [] =
      if decide (length visits ≤ fuel)
      then Some (collect_all_attributes m class_name)
      else None.
Proof.
  destruct (walk_from_start m (class_id_of m class_name)) as (chain & Hw & Hl).
  exists chain. split; [by eapply walk_NoDup|]. split; [done|].
  pose proof (walk_collect_all_attributes _ _ _ Hw Hl) as Heq.
  split; [done|]. intros fuel.
  by rewrite (walk_collect_loop _ _ _ _ Hw), Heq.
Qed.

(** On a model whose two classes inherit from each other the walk
    stops after both have been visited once. *)
Example collect_all_attributes_cyclic :
  let m := extract_model xmi_cyclic in
  inheritance m !! "A" = Some "B" ∧
  inheritance m !! "B" = Some "A" ∧
  map a_name (collect_all_attributes m "Equipment") = ["serialNumber"; "model"] ∧
  collect_loop m 2 (class_id_of m "Equipment") ∅ []
    = Some (collect_all_attributes m "Equipment").
Proof. vm_compute. done. Qed.

(** C5 (as amended). For a class name registered with a present,
    non-empty identifier, flattening returns the attributes of the
    identifiers of the inheritance chain that starts at that identifier,
    in chain order: the class's own attributes first, then its
    superclass's, and so on, up to the first identifier without recorded
    superclass or whose superclass was already visited.  For a name that
    is not registered, or is registered with an absent or empty
    identifier, it returns the empty list. *)
Theorem collect_all_attributes_chain (m : model) (class_name : string) :
  match class_ids m !! class_name with
  | Some (Some c) =>
      if decide (c = "") then collect_all_attributes m class_name = []
      else ∃ chain,
          superclass_chain (inheritance m) c chain ∧
          collect_all_attributes m class_name
            = flat_map (own_attributes m) chain
  | Some None | None => collect_all_attributes m class_name = []
  end.
Proof.
  destruct (walk_from_start m (class_id_of m class_name)) as (chain & Hw & Hl).
  pose proof (walk_collect_all_attributes _ _ _ Hw Hl) as Heq.
  unfold class_id_of in Hw.
  destruct (class_ids m !! class_name) as [[c|]|] eqn:Hc; simpl in Hw.
  - case_decide as Hempty.
    + subst c. inversion Hw; subst; [by rewrite Heq | done].
    + assert (Str.truthy (Some c) = true) as Ht by by destruct c.
      exists chain. split; [|done]. unfold superclass_chain.
      assert (head chain = Some c) as Hhead
        by (eapply walk_head; [done..|apply not_elem_of_empty]).
      split; [done|]. split; [by eapply walk_NoDup|].
      split; [by eapply walk_links|].
      destruct (last chain) as [l|] eqn:Hlast.
      * exists l. split; [done|].
        destruct (walk_last _ _ _ _ _ Hw Hlast) as [|(d & Hd & [Hin|Hin])];
          [by left | right; eauto | by apply not_elem_of_empty in Hin].
      * apply last_None in Hlast. by subst chain.
  - inversion Hw; subst. by rewrite Heq.
  - inversion Hw; subst. by rewrite Heq.
Qed.

(** C5 (as stated) fails on a class that has a name and no identifier:
    the name is registered and the class owns an attribute, but the
    flattened list is empty. *)
Lemma collect_all_attributes_needs_identifier :
  ¬ flattening_as_specified (extract_model xmi_class_without_id).
Proof.
  intros Hspec.
  destruct (Hspec "Station" None) as (inherited & Heq); [by vm_compute|].
  vm_compute in Heq. discriminate Heq.
Qed.

(** ** Strings *)

Lemma string_app_assoc (s1 s2 s3 : string) :
  s1 +:+ s2 +:+ s3 = (s1 +:+ s2) +:+ s3.
Proof.
  induction s1 as [|c s1 IH]; [done|].
  change (String c (s1 +:+ s2 +:+ s3) = String c ((s1 +:+ s2) +:+ s3)).
  by rewrite IH.
Qed.

Lemma endswith_unfold (s suffix : string) :
  Str.endswith s suffix =
  String.eqb s suffix ||
  match s with
  | EmptyString => false
  | String _ rest => Str.endswith rest suffix
  end.
Proof. by destruct s. Qed.

Lemma endswith_spec (s suffix : string) :
  Str.endswith s suffix = true ↔ ∃ p, s = p +:+ suffix.
Proof.
  induction s as [|c s IH]; rewrite endswith_unfold.
  - rewrite orb_false_r, String.eqb_eq. split.
    + intros <-. by exists "".
    + intros ([|? ?] & Hp); [done | discriminate Hp].
  - rewrite orb_true_iff, String.eqb_eq, IH. split.
    + intros [<- | (p & ->)]; [by exists "" | by exists (String c p)].
    + intros ([|c' p] & Hp); simpl in Hp; [by left|].
      injection Hp as <- ->. right. by exists p.
Qed.

Lemma after_first_spec (sep : ascii) (s rest : string) :
  Str.after_first sep s = Some rest ↔
  ∃ p, s = p +:+ String sep rest ∧ Str.after_first sep p = None.
Proof.
  revert rest. induction s as [|c s IH]; intros rest; simpl.
  - split; [done|]. intros ([|? ?] & Hp & _); discriminate Hp.
  - destruct (Ascii.eqb_spec c sep) as [->|Hne].
    + split.
      * intros [= ->]. by exists "".
      * intros ([|c' p] & Hp & Hnone); simpl in *.
        -- by injection Hp as ->.
        -- injection Hp as <- ->. by rewrite Ascii.eqb_refl in Hnone.
    + rewrite IH. split.
      * intros (p & -> & Hnone). exists (String c p). split; [done|].
        simpl. by destruct (Ascii.eqb_spec c sep).
      * intros ([|c' p] & Hp & Hnone); simpl in *.
        -- by injection Hp as ->.
        -- injection Hp as <- ->. exists p. split; [done|].
           by destruct (Ascii.eqb_spec c sep).
Qed.

Lemma localname_element_endswith (t : string) :
  localname t = "element" → Str.endswith t "element" = true.
Proof.
  intros Hl. apply endswith_spec. unfold localname in Hl.
  destruct t as [|c t]; [done|].
  destruct (Ascii.eqb_spec c "{") as [->|Hne].
  - destruct (Str.after_first "}" t) as [rest|] eqn:Hrest; simpl in Hl.
    + subst rest. apply after_first_spec in Hrest as (p & -> & _).
      exists (String "{" (p +:+ "}")).
      change (String "{" (p +:+ "}" +:+ "element")
              = String "{" ((p +:+ "}") +:+ "element")).
      by rewrite string_app_assoc.
    + discriminate Hl.
  - exists "". simpl.
    destruct c as [[] [] [] [] [] [] [] []]; try done.
Qed.

(** ** Lists *)

Lemma last_omap_Some {A B} (f : A → option B) (l : list A) (y : B) :
  last (omap f l) = Some y ↔
  ∃ before x after,
    l = before ++ x :: after ∧ f x = Some y ∧ ∀ z, z ∈ after → f z = None.
Proof.
  induction l as [|x l IH] using rev_ind.
  - split; [done|]. intros (before & x & after & Hl & _).
    by destruct before.
  - rewrite omap_app. simpl. destruct (f x) as [y'|] eqn:Hx.
    + rewrite last_snoc. split.
      * intros [= ->]. exists l, x, []. split; [done|]. split; [done|].
        intros z Hz. by apply elem_of_nil in Hz.
      * intros (before & x' & after & Hl & Hx' & Hafter).
        destruct after as [|z after _] using rev_ind.
        -- apply app_inj_tail in Hl as [_ ->]. congruence.
        -- rewrite app_comm_cons, app_assoc in Hl.
           apply app_inj_tail in Hl as [_ ->].
           rewrite Hafter in Hx; [done|]. apply elem_of_app. right. by left.
    + rewrite app_nil_r, IH. split.
      * intros (before & x' & after & -> & Hx' & Hafter).
        exists before, x', (after ++ [x]). split; [by rewrite <- app_assoc|].
        split; [done|]. intros z [Hz | ->%list_elem_of_singleton]%elem_of_app;
          [by apply Hafter | done].
      * intros (before & x' & after & Hl & Hx' & Hafter).
        destruct after as [|z after _] using rev_ind.
        -- apply app_inj_tail in Hl as [_ ->]. congruence.
        -- rewrite app_comm_cons, app_assoc in Hl.
           apply app_inj_tail in Hl as [-> ->].
           exists before, x', after. split; [done|]. split; [done|].
           intros w Hw. apply Hafter, elem_of_app. by left.
Qed.

Lemma last_omap_None {A B} (f : A → option B) (l : list A) :
  last (omap f l) = None ↔ ∀ x, x ∈ l → f x = None.
Proof.
  rewrite last_None. induction l as [|x l IH]; simpl.
  - split; [|done]. intros _ x Hx. by apply elem_of_nil in Hx.
  - destruct (f x) as [y|] eqn:Hx.
    + split; [done|]. intros Hall. rewrite Hall in Hx; [done | by left].
    + rewrite IH. split.
      * intros Hall z [->|Hz]%elem_of_cons; [done | by apply Hall].
      * intros Hall z Hz. apply Hall. by right.
Qed.

(** ** Type hints *)

Lemma type_map_step_hint (type_map : gmap string string) (e : element) :
  type_map_step type_map e =
  match type_hint e with
  | Some (name, t) => <[name := t]> type_map
  | None => type_map
  end.
Proof.
  unfold type_map_step, type_hint.
  destruct (Str.endswith (tag e) "element"); [|done].
  destruct (get e "name") as [name|]; simpl; [|done].
  destruct (strip_prefix (get e "type")) as [t|]; simpl; [|done].
  by destruct t.
Qed.

Lemma foldl_type_map_step (l : list element) (type_map : gmap string string)
    (name : string) :
  foldl type_map_step type_map l !! name =
  match last (omap (hint_for name) l) with
  | Some t => Some t
  | None => type_map !! name
  end.
Proof.
  induction l as [|e l IH] using rev_ind; [done|].
  rewrite foldl_snoc, omap_app, type_map_step_hint. simpl.
  unfold hint_for at 2. destruct (type_hint e) as [[n t]|]; simpl.
  - case_decide as Hn.
    + subst n. by rewrite last_snoc, lookup_insert_eq.
    + by rewrite app_nil_r, lookup_insert_ne.
  - by rewrite app_nil_r.
Qed.

Lemma build_type_map_from_xsd_lookup (xsd_root : element) (name : string) :
  build_type_map_from_xsd xsd_root !! name
  = last (omap (hint_for name) (iter xsd_root)).
Proof.
  unfold build_type_map_from_xsd. rewrite foldl_type_map_step.
  by destruct (last _).
Qed.

Lemma strip_prefix_Some (ty : string) :
  strip_prefix (Some ty) = Some (unprefixed ty).
Proof. unfold strip_prefix, unprefixed. by destruct (Str.after_first ":" ty). Qed.

Lemma truthy_Some (s : string) : Str.truthy (Some s) = true ↔ s ≠ "".
Proof. by destruct s. Qed.

(** What an element contributes for [name], in the terms of the source:
    its tag ends with "element", it carries [name], and its type is not
    empty once the prefix is removed. *)
Lemma hint_for_Some (name t : string) (e : element) :
  hint_for name e = Some t ↔
  Str.endswith (tag e) "element" = true ∧
  get e "name" = Some name ∧
  ∃ ty, get e "type" = Some ty ∧ t = unprefixed ty ∧ t ≠ "".
Proof.
  unfold hint_for, type_hint.
  destruct (Str.endswith (tag e) "element"); simpl;
    [|split; [done | by intros [? _]]].
  destruct (get e "name") as [n|]; simpl;
    [|split; [done | by intros (_ & ? & _)]].
  destruct (get e "type") as [ty|]; [rewrite strip_prefix_Some|]; simpl;
    [|split; [done | by intros (_ & _ & ty & ? & _)]].
  destruct (unprefixed ty) as [|c u] eqn:Hu; simpl.
  - split; [done|]. by intros (_ & _ & ty' & [= <-] & -> & Hne).
  - case_decide as Hn.
    + subst n. split.
      * intros [= <-]. split; [done|]. split; [done|]. exists ty.
        by rewrite Hu.
      * intros (_ & _ & ty' & [= <-] & -> & _). by rewrite Hu.
    + split; [done|]. by intros (_ & [= ?] & _).
Qed.

Lemma element_tags_exact_spec (xsd_root e : element) :
  element_tags_exact xsd_root = true →
  e ∈ iter xsd_root →
  Str.endswith (tag e) "element" = true ↔ localname (tag e) = "element".
Proof.
  intros Hexact He. split; [|apply localname_element_endswith].
  unfold element_tags_exact in Hexact. rewrite forallb_forall in Hexact.
  apply list_elem_of_In, Hexact in He. intros Hends.
  rewrite Hends in He. by apply String.eqb_eq.
Qed.

Lemma hint_for_declares (xsd_root e : element) (name t : string) :
  element_tags_exact xsd_root = true →
  e ∈ iter xsd_root →
  hint_for name e = Some t ↔ declares e name t ∧ t ≠ "".
Proof.
  intros Hexact He. rewrite hint_for_Some. unfold declares.
  rewrite (element_tags_exact_spec _ _ Hexact He). naive_solver.
Qed.

(** C3 (as amended). In an XSD tree where the elements whose tag ends
    with "element" are the [element] declarations, the type map binds
    [name] to [t] exactly when some declaration of [name] has a type
    attribute that is [t] once its namespace prefix (up to the first
    ":") is removed, [t] is not empty, and no declaration of [name]
    with such a non-empty type comes later in document order. *)
Theorem build_type_map_from_xsd_entries (xsd_root : element) :
  element_tags_exact xsd_root = true →
  ∀ name t,
    build_type_map_from_xsd xsd_root !! name = Some t ↔
    ∃ before e after,
      iter xsd_root = before ++ e :: after ∧
      declares e name t ∧ t ≠ "" ∧
      ∀ e' t', e' ∈ after → declares e' name t' → t' = "".
Proof.
  intros Hexact name t.
  rewrite build_type_map_from_xsd_lookup, last_omap_Some.
  split.
  - intros (before & e & after & Hiter & He & Hafter).
    assert (∀ z, z ∈ after → z ∈ iter xsd_root) as Hin.
    { intros z Hz. rewrite Hiter, elem_of_app, elem_of_cons. auto. }
    exists before, e, after. split; [done|].
    apply (hint_for_declares xsd_root) in He as [Hd Hne]; [|done|].
    + split; [done|]. split; [done|]. intros e' t' He' Hd'.
      destruct (decide (t' = "")) as [|Hne']; [done|].
      assert (hint_for name e' = Some t') as Hsome
        by (apply (hint_for_declares xsd_root); auto).
      by rewrite (Hafter e' He') in Hsome.
    + rewrite Hiter, elem_of_app, elem_of_cons. auto.
  - intros (before & e & after & Hiter & Hd & Hne & Hafter).
    assert (∀ z, z ∈ after → z ∈ iter xsd_root) as Hin.
    { intros z Hz. rewrite Hiter, elem_of_app, elem_of_cons. auto. }
    exists before, e, after. split; [done|]. split.
    + apply (hint_for_declares xsd_root); [done| |done].
      rewrite Hiter, elem_of_app, elem_of_cons. auto.
    + intros z Hz. destruct (hint_for name z) as [t'|] eqn:Hz'; [|done].
      apply (hint_for_declares xsd_root) in Hz' as [Hd' Hne']; [|auto..].
      by specialize (Hafter z t' Hz Hd').
Qed.

Lemma build_type_map_from_xsd_entries_witness :
  element_tags_exact xsd_sample = true ∧
  (build_type_map_from_xsd xsd_sample !! "elevation" = Some "float" ↔
   ∃ before e after,
     iter xsd_sample = before ++ e :: after ∧
     declares e "elevation" "float" ∧ "float" ≠ "" ∧
     ∀ e' t', e' ∈ after → declares e' "elevation" t' → t' = "").
Proof.
  split; [reflexivity|].
  apply (build_type_map_from_xsd_entries xsd_sample). reflexivity.
Defined.

Example build_type_map_from_xsd_sample :
  build_type_map_from_xsd xsd_sample !! "elevation" = Some "float" ∧
  build_type_map_from_xsd xsd_sample !! "observation" = Some "string" ∧
  build_type_map_from_xsd xsd_sample !! "remark" = None ∧
  build_type_map_from_xsd xsd_sample !! "StationType" = None.
Proof. by vm_compute. Qed.

(** C3 (as stated) fails on a declaration whose type attribute is
    empty: it carries a name and a type, but the map has no entry. *)
Lemma build_type_map_from_xsd_skips_empty_type :
  ¬ type_map_as_specified xsd_empty_type.
Proof.
  intros Hspec.
  assert (build_type_map_from_xsd xsd_empty_type !! "elevation" = Some "")
    as Hentry.
  { apply Hspec. exists xsd_untyped_declaration. split.
    - apply list_elem_of_lookup. by exists 1.
    - split; [done|]. split; [by vm_compute|]. exists "". by vm_compute. }
  vm_compute in Hentry. discriminate Hentry.
Qed.

(** ** Class documentation *)

Lemma class_child_documentation (cid : option string) (m : model)
    (sub : element) :
  documentation_by_id (class_child cid m sub) =
  match comment_text sub with
  | Some d => <[cid := d]> (documentation_by_id m)
  | None => documentation_by_id m
  end.
Proof.
  unfold class_child, comment_text.
  destruct (String.eqb_spec (localname (tag sub)) "ownedAttribute") as [->|_].
  - simpl. by destruct (get sub "name").
  - destruct (String.eqb (localname (tag sub)) "ownedComment"); [|done].
    destruct (find_body sub) as [body|]; simpl; [|done].
    destruct (text body) as [[|c s]|]; simpl; done.
Qed.

Lemma foldl_class_child_documentation (cid : option string)
    (subs : list element) (m : model) (k : option string) :
  documentation_by_id (foldl (class_child cid) m subs) !! k =
  match (if decide (k = cid) then last (omap comment_text subs) else None) with
  | Some d => Some d
  | None => documentation_by_id m !! k
  end.
Proof.
  induction subs as [|sub subs IH] using rev_ind.
  - simpl. by case_decide.
  - rewrite foldl_snoc, class_child_documentation, omap_app. simpl.
    destruct (comment_text sub) as [d|]; simpl.
    + rewrite last_snoc. destruct (decide (k = cid)) as [Hk|Hk].
      * subst k. by rewrite lookup_insert_eq.
      * rewrite lookup_insert_ne by done. by rewrite IH.
    + by rewrite app_nil_r.
Qed.

Lemma class_pass_step_documentation (m : model) (e : element)
    (k : option string) :
  documentation_by_id (class_pass_step m e) !! k =
  match (if is_named_class e && bool_decide (k = get e XMI_ID)
         then last (omap comment_text (children e)) else None) with
  | Some d => Some d
  | None => documentation_by_id m !! k
  end.
Proof.
  unfold class_pass_step, is_named_class.
  destruct (is_class e); [|done].
  destruct (get e "name") as [[|c name]|]; simpl; [done| |done].
  rewrite foldl_class_child_documentation. simpl.
  case_decide; [by rewrite bool_decide_true | by rewrite bool_decide_false].
Qed.

Lemma class_pass_other_documentation (l : list element) (m : model)
    (k : option string) :
  (∀ other, other ∈ l → is_named_class other = true → get other XMI_ID ≠ k) →
  documentation_by_id (foldl class_pass_step m l) !! k
  = documentation_by_id m !! k.
Proof.
  induction l as [|e l IH] using rev_ind; intros Hother; [done|].
  rewrite foldl_snoc, class_pass_step_documentation.
  destruct (is_named_class e) eqn:He; simpl.
  - rewrite bool_decide_false.
    + apply IH. intros other Hin. apply Hother, elem_of_app. by left.
    + intros ->. eapply Hother; [|done..]. apply elem_of_app. right. by left.
  - apply IH. intros other Hin. apply Hother, elem_of_app. by left.
Qed.

Lemma generalization_pass_documentation
    (l : list (option element * element)) (m : model) :
  documentation_by_id (foldl generalization_step m l) = documentation_by_id m.
Proof.
  induction l as [|[p e] l IH] using rev_ind; [done|].
  rewrite foldl_snoc. unfold generalization_step at 1.
  destruct (String.eqb (localname (tag e)) "generalization"); [|done].
  repeat case_match; done.
Qed.

(** C2 (as amended). For a registered class element whose identifier
    no other registered class element of the tree shares, the
    documentation recorded for its identifier is the stripped text
    contributed by the last [ownedComment] child that has a nested
    [body] with non-empty text: each such comment replaces the text
    recorded by the earlier ones.  Without such a comment nothing is
    recorded. *)
Theorem documentation_of_class (xmi_root cls : element)
    (before after : list element) :
  iter xmi_root = before ++ cls :: after →
  is_named_class cls = true →
  (∀ other, other ∈ before ++ after → is_named_class other = true →
            get other XMI_ID ≠ get cls XMI_ID) →
  documentation_by_id (extract_model xmi_root) !! get cls XMI_ID
  = last (omap comment_text (children cls)).
Proof.
  intros Hiter Hcls Hother. unfold extract_model.
  rewrite generalization_pass_documentation, Hiter, foldl_app. simpl.
  rewrite class_pass_other_documentation
    by (intros other Hin; apply Hother, elem_of_app; by right).
  rewrite class_pass_step_documentation, Hcls, bool_decide_true by done.
  simpl. destruct (last _) as [d|]; [done|].
  rewrite class_pass_other_documentation
    by (intros other Hin; apply Hother, elem_of_app; by left).
  done.
Qed.

Lemma documentation_of_class_witness :
  documentation_by_id (extract_model xmi_two_comments) !! Some "F"
  = Some "Superseded note.".
Proof.
  apply (documentation_of_class xmi_two_comments facility_two_comments
           [xmi_two_comments]
           (flat_map iter (children facility_two_comments))).
  - reflexivity.
  - reflexivity.
  - intros other Hin.
    repeat (apply elem_of_cons in Hin as [->|Hin]; [by vm_compute|]).
    by apply elem_of_nil in Hin.
Defined.

(** C2 (as stated) fails on a class with two comments: the text of the
    second one is recorded, not that of the first. *)
Lemma documentation_keeps_last_comment :
  ¬ documentation_as_specified xmi_two_comments.
Proof.
  intros Hspec.
  specialize (Hspec facility_two_comments).
  assert (Some "Superseded note." = Some "An observing facility.") as Heq;
    [|discriminate Heq].
  apply Hspec; [|reflexivity].
  apply list_elem_of_lookup. by exists 1.
Qed.

(** ** Dictionaries *)

Lemma dict_get_set_eq (k : string) (v : pyval) (d : list (string * pyval)) :
  dict_get k (dict_set k v d) = Some v.
Proof.
  induction d as [|[k' x] d IH]; simpl.
  - by rewrite String.eqb_refl.
  - destruct (String.eqb_spec k' k) as [->|Hne]; simpl.
    + by rewrite String.eqb_refl.
    + by destruct (String.eqb_spec k' k).
Qed.

Lemma dict_get_set_ne (k k' : string) (v : pyval) (d : list (string * pyval)) :
  k ≠ k' → dict_get k (dict_set k' v d) = dict_get k d.
Proof.
  intros Hne. induction d as [|[k0 x] d IH]; simpl.
  - by destruct (String.eqb_spec k' k) as [->|].
  - destruct (String.eqb_spec k0 k') as [->|Hne']; simpl.
    + by destruct (String.eqb_spec k' k) as [->|].
    + by destruct (String.eqb_spec k0 k).
Qed.

Lemma dict_has_get (k : string) (d : list (string * pyval)) :
  dict_has k d = true ↔ is_Some (dict_get k d).
Proof.
  unfold dict_has. induction d as [|[k' x] d IH]; simpl.
  - split; [done | by intros [? ?]].
  - destruct (String.eqb k' k); simpl; [|done]. split; eauto.
Qed.

Lemma dict_has_set (k k' : string) (v : pyval) (d : list (string * pyval)) :
  dict_has k (dict_set k' v d) = String.eqb k' k || dict_has k d.
Proof.
  unfold dict_has. induction d as [|[k0 x] d IH]; simpl.
  - by rewrite orb_false_r.
  - destruct (String.eqb_spec k0 k') as [->|Hne]; simpl.
    + by destruct (String.eqb k' k).
    + rewrite IH. by destruct (String.eqb k0 k), (String.eqb k' k).
Qed.



Lemma dict_get_dump (tbl : gmap string (list (string * pyval))) (k : string)
    (d : list (string * pyval)) :
  dict_get k (map (λ kv, let '(k, x) := kv in (k, dump tbl x)) d)
  = dump tbl <$> dict_get k d.
Proof.
  induction d as [|[k' x] d IH]; simpl; [done|].
  by destruct (String.eqb k' k).
Qed.

Lemma get_path_dump (tbl : gmap string (list (string * pyval)))
    (path : list string) (v x : pyval) :
  get_path path v = Some x → get_path path (dump tbl v) = Some (dump tbl x).
Proof.
  revert v. induction path as [|k path IH]; intros v; simpl.
  - by intros [= ->].
  - destruct v as [| | |d|]; try done. simpl.
    rewrite dict_get_dump. destruct (dict_get k d) as [y|]; simpl; [|done].
    apply IH.
Qed.

(** ** Property maps *)

Section AssemblyFacts.

Variable m : model.
Variable xsd_type_map : gmap string string.
Variable exclude : option (gset string).

Local Abbreviation step := (attrs_step m xsd_type_map exclude).

Lemma attrs_step_included (st : assembly) (a : attr) :
  included exclude a = false → step st a = st.
Proof. unfold attrs_step, included. by intros ->. Qed.

Lemma attrs_step_required (st : assembly) (a : attr) :
  required (step st a) =
  required st ++
    (if included exclude a && lower_requires a then [a_name a] else []).
Proof.
  unfold attrs_step. fold (included exclude a).
  destruct (included exclude a); simpl; [|by rewrite app_nil_r].
  destruct (Str.truthy (documentation_by_id m !! a_id a));
    [destruct (set_description _ _ _)|]; simpl;
    destruct (lower_requires a); by rewrite ?app_nil_r.
Qed.

Lemma attrs_required (l : list attr) (st : assembly) :
  required (foldl step st l) =
  required st ++
    map a_name
        (List.filter (λ a, included exclude a && lower_requires a) l).
Proof.
  revert st. induction l as [|a l IH]; intros st; simpl.
  - by rewrite app_nil_r.
  - rewrite IH, attrs_step_required.
    destruct (included exclude a && lower_requires a); simpl.
    + by rewrite <- app_assoc.
    + by rewrite app_nil_r.
Qed.

Lemma attrs_step_has (st : assembly) (a : attr) (name : string) :
  dict_has name (schema_props (step st a)) =
  (included exclude a && String.eqb (a_name a) name)
  || dict_has name (schema_props st).
Proof.
  unfold attrs_step. fold (included exclude a).
  destruct (included exclude a); simpl; [|done].
  destruct (Str.truthy (documentation_by_id m !! a_id a));
    [destruct (set_description _ _ _)|]; simpl; apply dict_has_set.
Qed.

Lemma attrs_has (l : list attr) (st : assembly) (name : string) :
  dict_has name (schema_props (foldl step st l)) =
  existsb (λ a, included exclude a && String.eqb (a_name a) name) l
  || dict_has name (schema_props st).
Proof.
  revert st. induction l as [|a l IH]; intros st; simpl; [done|].
  rewrite IH, attrs_step_has.
  by destruct (included exclude a && String.eqb (a_name a) name),
    (existsb _ l).
Qed.

End AssemblyFacts.

(** ** Multiplicity of a fragment *)

(** C1 (as amended). Property derivation yields the scalar fragment
    when [upper] is "1" and the array of that fragment for every other
    value of [upper], the absent one included, in the
    composite-reference branch as in the XSD-primitive branch. *)
Theorem infer_json_type_multiplicity (m : model)
    (xsd_type_map : gmap string string) :
  derivation_wraps_by single_valued m xsd_type_map.
Proof.
  intros a. unfold infer_json_type, is_composite_reference, single_valued,
    with_multiplicity, reference_fragment, primitive_fragment.
  split.
  - intros ->. by destruct (Str.equals (a_upper a) "1").
  - intros -> xsd_type ->. by destruct (Str.equals (a_upper a) "1").
Qed.

Lemma infer_json_type_multiplicity_witness :
  infer_json_type empty_model {["elevation" := "float"]}
                  (Attr "elevation" None None None None (Some "1"))
  = PShared "float" ∧
  infer_json_type empty_model {["elevation" := "float"]}
                  (Attr "elevation" None None None None (Some "*"))
  = PDict [("type", PStr "array"); ("items", PShared "float")].
Proof.
  split.
  - exact (proj2 (infer_json_type_multiplicity empty_model
                    {["elevation" := "float"]}
                    (Attr "elevation" None None None None (Some "1")))
                 eq_refl "float" eq_refl).
  - exact (proj2 (infer_json_type_multiplicity empty_model
                    {["elevation" := "float"]}
                    (Attr "elevation" None None None None (Some "*")))
                 eq_refl "float" eq_refl).
Defined.

(** C1 (as stated) fails for an attribute without [upper]: the
    fragment is the array of the primitive fragment, not the scalar. *)
Lemma infer_json_type_absent_upper_is_array :
  ¬ derivation_wraps_by single_valued_as_specified
      empty_model {["elevation" := "float"]}.
Proof.
  intros Hspec.
  destruct (Hspec (plain_attribute "elevation")) as [_ Hprim].
  specialize (Hprim eq_refl "float" eq_refl).
  vm_compute in Hprim. discriminate Hprim.
Qed.

(** What is written for that attribute. *)
Example infer_json_type_absent_upper :
  dump xsd_to_json_type
       (infer_json_type empty_model {["elevation" := "float"]}
                        (plain_attribute "elevation"))
  = PDict [("type", PStr "array"); ("items", PDict [("type", PStr "number")])].
Proof. by vm_compute. Qed.

(** ** The required list *)

Lemma NoDup_map_inj {A B} (f : A → B) (l : list A) (x y : A) :
  NoDup (map f l) → x ∈ l → y ∈ l → f x = f y → x = y.
Proof.
  induction l as [|z l IH]; simpl; [by intros _ ?%elem_of_nil|].
  intros [Hz Hl]%NoDup_cons [->|Hx]%elem_of_cons [->|Hy]%elem_of_cons Hf;
    [done| | |by apply IH].
  - destruct Hz. rewrite Hf. by apply (list_elem_of_fmap_2 f).
  - destruct Hz. rewrite <- Hf. by apply (list_elem_of_fmap_2 f).
Qed.

Lemma required_elem_of (m : model) (xsd_type_map : gmap string string)
    (attr_list : list attr) (exclude : option (gset string))
    (tbl : gmap string (list (string * pyval))) (name : string) :
  name ∈ required (attrs_to_json_schema m xsd_type_map attr_list exclude tbl)
  ↔ ∃ a, a ∈ attr_list ∧ a_name a = name ∧
         included exclude a = true ∧ lower_requires a = true.
Proof.
  unfold attrs_to_json_schema. rewrite attrs_required. simpl.
  rewrite list_elem_of_fmap. split.
  - intros (a & -> & Hin). apply list_elem_of_In, filter_In in Hin as [Hin Ha].
    apply andb_true_iff in Ha as [? ?]. exists a.
    by rewrite list_elem_of_In.
  - intros (a & Hin & <- & Hi & Hl). exists a. split; [done|].
    apply list_elem_of_In, filter_In. rewrite <- list_elem_of_In.
    by rewrite Hi, Hl.
Qed.

(** C7 (as amended). A name is in the required list of a property map
    exactly when the attribute list has an included attribute of that
    name whose [lower] bound is present and not "0". *)
Theorem attrs_to_json_schema_required (m : model)
    (xsd_type_map : gmap string string) (attr_list : list attr)
    (exclude : option (gset string))
    (tbl : gmap string (list (string * pyval))) (name : string) :
  name ∈ required (attrs_to_json_schema m xsd_type_map attr_list exclude tbl)
  ↔ ∃ a, a ∈ attr_list ∧ a_name a = name ∧
         included exclude a = true ∧ lower_requires a = true.
Proof. apply required_elem_of. Qed.

(** When no name is declared twice this is the per-attribute reading:
    the name of an included attribute is required exactly when its own
    [lower] bound says so. *)
Lemma attrs_to_json_schema_required_distinct (m : model)
    (xsd_type_map : gmap string string) (attr_list : list attr)
    (exclude : option (gset string)) :
  NoDup (map a_name attr_list) →
  required_as_specified m xsd_type_map attr_list exclude.
Proof.
  intros Hnodup a Hin Hincl.
  rewrite required_elem_of. split.
  - intros (b & Hb & Hname & _ & Hl).
    by rewrite (NoDup_map_inj a_name attr_list b a Hnodup Hb Hin Hname) in Hl.
  - intros Hl. by exists a.
Qed.

(** C7 (as stated) fails when a name is declared twice: the second
    attribute is optional, yet its name is in the required list. *)
Lemma attrs_to_json_schema_required_redeclared :
  ¬ required_as_specified empty_model ∅ redeclared_attribute None.
Proof.
  intros Hspec.
  specialize (Hspec (Attr "name" None None None (Some "0") (Some "1"))).
  assert (false = true) as Habs; [|discriminate Habs].
  apply Hspec; [|reflexivity|].
  - apply list_elem_of_lookup. by exists 1.
  - vm_compute. by left.
Qed.

Section PropertyFacts.

Variable m : model.
Variable xsd_type_map : gmap string string.
Variable exclude : option (gset string).

Local Abbreviation step := (attrs_step m xsd_type_map exclude).
Local Abbreviation infer := (infer_json_type m xsd_type_map).

Lemma attrs_step_property (st : assembly) (a : attr) :
  included exclude a = true →
  step st a =
  Assembly
    (dict_set (a_name a) (property_of m xsd_type_map a (table st)).1
              (schema_props st))
    (if lower_requires a then required st ++ [a_name a] else required st)
    (property_of m xsd_type_map a (table st)).2.
Proof.
  unfold attrs_step, property_of. fold (included exclude a). intros ->.
  by destruct (Str.truthy _); [destruct (set_description _ _ _)|].
Qed.

Lemma property_of_undocumented (a : attr)
    (tbl : gmap string (list (string * pyval))) :
  Str.truthy (documentation_by_id m !! a_id a) = false →
  property_of m xsd_type_map a tbl = (infer a, tbl).
Proof. unfold property_of. by intros ->. Qed.


(** The property of the last included attribute of a name is the one
    the map keeps for that name. *)
Lemma attrs_last_declaration (before after : list attr) (a : attr)
    (st : assembly) :
  included exclude a = true →
  (∀ b, b ∈ after → included exclude b = true → a_name b ≠ a_name a) →
  ∃ tbl,
    dict_get (a_name a) (schema_props (foldl step st (before ++ a :: after)))
    = Some (property_of m xsd_type_map a tbl).1.
Proof.
  intros Hincl Hafter. rewrite foldl_app. simpl.
  exists (table (foldl step st before)).
  assert (∀ st2 p,
            dict_get (a_name a) (schema_props st2) = Some p →
            dict_get (a_name a) (schema_props (foldl step st2 after)) = Some p)
    as Hkeep.
  { clear st. induction after as [|b after IH]; intros st2 p Hget; [done|].
    simpl. apply IH.
    - intros c Hc. apply Hafter. by right.
    - destruct (included exclude b) eqn:Hb.
      + rewrite attrs_step_property by done. simpl.
        rewrite dict_get_set_ne; [done|].
        intros Heq. eapply Hafter; [by left | done | done].
      + by rewrite attrs_step_included. }
  apply Hkeep. rewrite attrs_step_property by done. apply dict_get_set_eq.
Qed.

End PropertyFacts.

(** ** Descriptions *)



(** ** What extraction records *)

Lemma class_child_class_names (cid : option string) (m : model)
    (sub : element) :
  class_names_by_id (class_child cid m sub) = class_names_by_id m.
Proof. unfold class_child. by repeat case_match. Qed.




Lemma generalization_pass_class_names
    (l : list (option element * element)) (m : model) :
  class_names_by_id (foldl generalization_step m l) = class_names_by_id m.
Proof.
  induction l as [|[p e] l IH] using rev_ind; [done|].
  rewrite foldl_snoc. unfold generalization_step at 1.
  destruct (String.eqb (localname (tag e)) "generalization"); [|done].
  repeat case_match; done.
Qed.

Lemma generalization_pass_attributes
    (l : list (option element * element)) (m : model) :
  attributes_by_id (foldl generalization_step m l) = attributes_by_id m.
Proof.
  induction l as [|[p e] l IH] using rev_ind; [done|].
  rewrite foldl_snoc. unfold generalization_step at 1.
  destruct (String.eqb (localname (tag e)) "generalization"); [|done].
  repeat case_match; done.
Qed.





(** ** The shape of the documents *)

Lemma bind_Some {A B} (f : A → option B) (x : A) : Some x ≫= f = f x.
Proof. reflexivity. Qed.


Lemma get_path_app (p1 p2 : list string) (v : pyval) :
  get_path (p1 ++ p2) v = get_path p1 v ≫= get_path p2.
Proof.
  revert v. induction p1 as [|k p1 IH]; intros v; simpl; [done|].
  destruct v as [| | |d|]; try done.
  destruct (dict_get k d) as [x|]; simpl; [apply IH | done].
Qed.

Lemma get_path_property (tbl : gmap string (list (string * pyval)))
    (name : string) (props : list (string * pyval)) (rest : list string) :
  get_path (name :: rest) (dump tbl (PDict props))
  = dict_get name props ≫= λ v, get_path rest (dump tbl v).
Proof.
  simpl. rewrite dict_get_dump. by destruct (dict_get name props).
Qed.

Lemma class_schema_properties (tbl : gmap string (list (string * pyval)))
    (name : string) (props : list (string * pyval)) (req : list string) :
  get_path ["properties"] (dump tbl (class_schema name props req))
  = Some (dump tbl (PDict props)).
Proof. reflexivity. Qed.

Lemma class_schema_defs (tbl : gmap string (list (string * pyval)))
    (name : string) (props : list (string * pyval)) (req : list string) :
  get_path ["$defs"] (dump tbl (class_schema name props req)) = None.
Proof. reflexivity. Qed.

Lemma unified_document_facility (tbl : gmap string (list (string * pyval)))
    (obs equip obsrv : assembly) :
  get_path ["$defs"; "ObservingFacility"; "properties"]
           (unified_document tbl obs equip obsrv)
  = Some (dump tbl (PDict (override_collections (schema_props obs)))).
Proof. reflexivity. Qed.

Lemma unified_document_equipment (tbl : gmap string (list (string * pyval)))
    (obs equip obsrv : assembly) :
  get_path ["$defs"; "Equipment"; "properties"]
           (unified_document tbl obs equip obsrv)
  = Some (dump tbl (PDict (schema_props equip))).
Proof. reflexivity. Qed.

Lemma unified_document_observation (tbl : gmap string (list (string * pyval)))
    (obs equip obsrv : assembly) :
  get_path ["$defs"; "Observation"; "properties"]
           (unified_document tbl obs equip obsrv)
  = Some (dump tbl (PDict (schema_props obsrv))).
Proof. reflexivity. Qed.


Lemma unified_document_defs (tbl : gmap string (list (string * pyval)))
    (obs equip obsrv : assembly) :
  get_path ["$defs"] (unified_document tbl obs equip obsrv)
  = Some
      (PDict
         [("geometry",
           PDict [("type", PStr "object");
                  ("properties",
                   PDict [("type", enum_string "Point");
                          ("coordinates", coordinates)]);
                  ("required", PList [PStr "type"; PStr "coordinates"])]);
          ("Equipment",
           PDict [("type", PStr "object");
                  ("properties", dump tbl (PDict (schema_props equip)))]);
          ("Observation",
           PDict [("type", PStr "object");
                  ("properties", dump tbl (PDict (schema_props obsrv)))]);
          ("ObservingFacility",
           PDict [("type", PStr "object");
                  ("properties",
                   dump tbl
                     (PDict (override_collections (schema_props obs))));
                  ("required",
                   dump tbl (PList (map PStr (required obs))))])]).
Proof. reflexivity. Qed.


Lemma parse_unified (xmi_root xsd_root : element) :
  ∃ obs equip obsrv,
    class_assemblies (extract_model xmi_root)
                     (build_type_map_from_xsd xsd_root)
    = (obs, equip, obsrv) ∧
    parse_ea_xmi_to_geojson_schema xmi_root xsd_root false
    = [(OutputFile, unified_document (table obsrv) obs equip obsrv)].
Proof.
  unfold parse_ea_xmi_to_geojson_schema.
  destruct (class_assemblies _ _) as [[obs equip] obsrv].
  by exists obs, equip, obsrv.
Qed.

Lemma parse_split (xmi_root xsd_root : element) :
  ∃ obs equip obsrv,
    class_assemblies (extract_model xmi_root)
                     (build_type_map_from_xsd xsd_root)
    = (obs, equip, obsrv) ∧
    parse_ea_xmi_to_geojson_schema xmi_root xsd_root true
    = [(InBaseDir "ObservingFacility.schema.json",
        dump (table obsrv)
             (class_schema "ObservingFacility" (schema_props obs)
                           (required obs)));
       (InBaseDir "Equipment.schema.json",
        dump (table obsrv)
             (class_schema "Equipment" (schema_props equip) (required equip)));
       (InBaseDir "Observation.schema.json",
        dump (table obsrv)
             (class_schema "Observation" (schema_props obsrv)
                           (required obsrv)));
       (InBaseDir "FeatureCollection.schema.json",
        dump (table obsrv) wrapper_schema);
       (InBaseDir "geometry.schema.json", dump (table obsrv) geom_schema)].
Proof.
  unfold parse_ea_xmi_to_geojson_schema.
  destruct (class_assemblies _ _) as [[obs equip] obsrv].
  by exists obs, equip, obsrv.
Qed.

(** C8. In split mode a run writes five documents, to
    ObservingFacility.schema.json, Equipment.schema.json,
    Observation.schema.json, FeatureCollection.schema.json and
    geometry.schema.json of the base directory, and in the wrapper
    document [properties.features.items.properties.properties] is the
    reference to the relative file name ObservingFacility.schema.json. *)
Theorem split_mode_documents (xmi_root xsd_root : element) :
  ∃ facility equipment observation wrapper geometry,
    parse_ea_xmi_to_geojson_schema xmi_root xsd_root true
    = [(InBaseDir "ObservingFacility.schema.json", facility);
       (InBaseDir "Equipment.schema.json", equipment);
       (InBaseDir "Observation.schema.json", observation);
       (InBaseDir "FeatureCollection.schema.json", wrapper);
       (InBaseDir "geometry.schema.json", geometry)] ∧
    get_path ["properties"; "features"; "items"; "properties"; "properties"]
             wrapper
    = Some (PDict [("$ref", PStr "ObservingFacility.schema.json")]).
Proof.
  destruct (parse_split xmi_root xsd_root) as (obs & equip & obsrv & _ & ->).
  by repeat eexists.
Qed.

(** ** The collections of the facility *)

Lemma override_collections_equipment (d : list (string * pyval)) :
  dict_has "equipment" d = true →
  dict_get "equipment" (override_collections d)
  = Some (array_of_ref "Equipment").
Proof.
  intros Hd. unfold override_collections. rewrite Hd.
  destruct (dict_has "observation" _).
  - rewrite dict_get_set_ne by done. apply dict_get_set_eq.
  - apply dict_get_set_eq.
Qed.

Lemma override_collections_observation (d : list (string * pyval)) :
  dict_has "observation" d = true →
  dict_get "observation" (override_collections d)
  = Some (array_of_ref "Observation").
Proof.
  intros Hd. unfold override_collections.
  destruct (dict_has "equipment" d).
  - rewrite dict_has_set, Hd. simpl. apply dict_get_set_eq.
  - rewrite Hd. apply dict_get_set_eq.
Qed.

Lemma override_collections_other (d : list (string * pyval)) (name : string) :
  name ≠ "equipment" → name ≠ "observation" →
  dict_get name (override_collections d) = dict_get name d.
Proof.
  intros He Ho. unfold override_collections.
  destruct (dict_has "equipment" d).
  - destruct (dict_has "observation" _);
      by rewrite ?(dict_get_set_ne _ "observation"),
                 ?(dict_get_set_ne _ "equipment").
  - destruct (dict_has "observation" d);
      by rewrite ?(dict_get_set_ne _ "observation").
Qed.


Lemma class_assemblies_facility (m : model)
    (xsd_type_map : gmap string string) (obs equip obsrv : assembly) :
  class_assemblies m xsd_type_map = (obs, equip, obsrv) →
  obs = attrs_to_json_schema m xsd_type_map
          (collect_all_attributes m "ObservingFacility")
          (Some {["geospatialLocation"]}) xsd_to_json_type ∧
  equip = attrs_to_json_schema m xsd_type_map
            (collect_all_attributes m "Equipment") None (table obs) ∧
  obsrv = attrs_to_json_schema m xsd_type_map
            (collect_all_attributes m "Observation") None (table equip).
Proof. unfold class_assemblies. by intros [= <- <- <-]. Qed.

Lemma facility_has_property (m : model) (xsd_type_map : gmap string string)
    (tbl : gmap string (list (string * pyval))) (l : list attr) (a : attr) :
  a ∈ l →
  a_name a ≠ "" → a_name a ≠ "geospatialLocation" →
  dict_has (a_name a)
    (schema_props (attrs_to_json_schema m xsd_type_map l
                     (Some {["geospatialLocation"]}) tbl)) = true.
Proof.
  intros Hin Hne Hgeo. unfold attrs_to_json_schema. rewrite attrs_has.
  apply orb_true_iff. left. apply existsb_exists. exists a.
  split; [by apply list_elem_of_In|].
  rewrite String.eqb_refl, andb_true_r. unfold included. simpl.
  apply andb_true_iff. split; [by apply truthy_Some|].
  apply bool_decide_eq_true. by intros ?%elem_of_singleton.
Qed.

(** C4. In unified mode, when the flattened attributes of
    ObservingFacility have one named [equipment] (respectively
    [observation]), the written entry of that name in
    [$defs.ObservingFacility.properties] is the array of references to
    [#/$defs/Equipment] (respectively [#/$defs/Observation]), whatever
    the attribute itself is. *)
Theorem unified_mode_collections (xmi_root xsd_root : element)
    (name cls : string) (a : attr) :
  (name, cls) ∈ [("equipment", "Equipment"); ("observation", "Observation")] →
  a ∈ collect_all_attributes (extract_model xmi_root) "ObservingFacility" →
  a_name a = name →
  ∃ doc,
    parse_ea_xmi_to_geojson_schema xmi_root xsd_root false
    = [(OutputFile, doc)] ∧
    get_path ["$defs"; "ObservingFacility"; "properties"; name] doc
    = Some (PDict [("type", PStr "array");
                   ("items", PDict [("$ref", PStr ("#/$defs/" +:+ cls))])]).
Proof.
  intros Hname Hin Ha.
  destruct (parse_unified xmi_root xsd_root)
    as (obs & equip & obsrv & Hca & ->).
  apply class_assemblies_facility in Hca as (Hobs & _ & _).
  eexists. split; [done|].
  change ["$defs"; "ObservingFacility"; "properties"; name]
    with (["$defs"; "ObservingFacility"; "properties"] ++ [name]).
  rewrite get_path_app, unified_document_facility. rewrite bind_Some.
  rewrite get_path_property.
  assert (dict_has name (schema_props obs) = true) as Hhas.
  { rewrite Hobs, <- Ha. apply facility_has_property; [done|..];
      rewrite Ha; apply elem_of_cons in Hname as [[= -> ->]|Hname];
      [done| |done|];
      apply list_elem_of_singleton in Hname as [= -> ->]; done. }
  apply elem_of_cons in Hname as [[= -> ->]|Hname].
  - by rewrite override_collections_equipment.
  - apply list_elem_of_singleton in Hname as [= -> ->].
    by rewrite override_collections_observation.
Qed.

Lemma unified_mode_collections_witness :
  ∃ doc,
    parse_ea_xmi_to_geojson_schema xmi_sample xsd_sample false
    = [(OutputFile, doc)] ∧
    get_path ["$defs"; "ObservingFacility"; "properties"; "observation"] doc
    = Some (PDict [("type", PStr "array");
                   ("items", PDict [("$ref", PStr "#/$defs/Observation")])]).
Proof.
  apply (unified_mode_collections xmi_sample xsd_sample
           "observation" "Observation"
           (Attr "observation" None None (Some "OF.obs") None (Some "1"))).
  - apply list_elem_of_lookup. by exists 1.
  - apply list_elem_of_lookup. exists 3. by vm_compute.
  - reflexivity.
Defined.

(** In the sample the [observation] attribute alone is a scalar string
    by its XSD hint. *)
Example observation_inferred_scalar :
  dump xsd_to_json_type
    (infer_json_type (extract_model xmi_sample)
       (build_type_map_from_xsd xsd_sample)
       (Attr "observation" None None (Some "OF.obs") None (Some "1")))
  = PDict [("type", PStr "string")].
Proof. by vm_compute. Qed.

(** ** Descriptions in the written documents *)











(** The conclusion also fails when identifiers are compared only where
    they are present: a class and an attribute without identifier
    share the key [None], and the attribute is written with the
    description of the class. *)
Example description_without_identifiers :
  let m := extract_model xmi_without_identifiers in
  let written :=
    parse_ea_xmi_to_geojson_schema xmi_without_identifiers xsd_strings true in
  present_ids_distinct m = true ∧
  attribute_ids_distinct m = false ∧
  documentation_by_id m !! None = Some "A platform." ∧
  (written_to "Equipment.schema.json" written
   ≫= get_path ["properties"; "remark"])
  = Some (PDict [("type", PStr "string");
                 ("description", PStr "A platform.")]) ∧
  ¬ descriptions_as_specified xmi_without_identifiers xsd_strings.
Proof.
  intros m written.
  split; [by vm_compute|]. split; [by vm_compute|].
  split; [by vm_compute|]. split; [by vm_compute|].
  intros (_ & _ & Hplain).
  assert (carries_description
            (PDict [("type", PStr "string");
                    ("description", PStr "A platform.")]) = false)
    as Hfalse; [|done].
  apply (Hplain ltac:(by vm_compute) true
           (InBaseDir "Equipment.schema.json")
           (default (PList [])
              (written_to "Equipment.schema.json"
                 (parse_ea_xmi_to_geojson_schema
                    xmi_without_identifiers xsd_strings true)))).
  - vm_compute. right. by left.
  - exists "remark". by vm_compute.
Qed.

(** The hypothesis on identifiers matters.  When an attribute has the
    identifier of a documented class, its description is written into
    the dictionary of the static table, and from there it shows in the
    fragment of every attribute of the same primitive type. *)
Example description_reaches_other_attributes :
  let m := extract_model xmi_shared_identifier in
  let written :=
    parse_ea_xmi_to_geojson_schema xmi_shared_identifier xsd_strings true in
  attribute_ids_distinct m = false ∧
  documentation_by_id m !! Some "EQ.model" = None ∧
  (written_to "Equipment.schema.json" written
   ≫= get_path ["properties"; "model"])
  = Some (PDict [("type", PStr "string");
                 ("description", PStr "An instrument.")]).
Proof. by vm_compute. Qed.

(** ** References to class definitions *)



Lemma class_assemblies_schema_class (m : model)
    (xsd_type_map : gmap string string) (obs equip obsrv : assembly)
    (cls : string) (exclude : option (gset string)) :
  class_assemblies m xsd_type_map = (obs, equip, obsrv) →
  (cls, exclude) ∈ schema_classes →
  ∃ st tbl,
    (cls, st) ∈ [("ObservingFacility", obs); ("Equipment", equip);
                 ("Observation", obsrv)] ∧
    st = attrs_to_json_schema m xsd_type_map
           (collect_all_attributes m cls) exclude tbl.
Proof.
  intros (-> & -> & ->)%class_assemblies_facility Hcls.
  unfold schema_classes in Hcls.
  repeat (apply elem_of_cons in Hcls as [[= -> ->]|Hcls]);
    [| | |by apply elem_of_nil in Hcls]; eexists _, _; (split; [|done]).
  - by left.
  - right. by left.
  - right. right. by left.
Qed.




(** In the sample, the equipment file refers to the facility by an
    internal pointer that the file itself does not define. *)
Example equipment_file_reference :
  let written :=
    parse_ea_xmi_to_geojson_schema xmi_sample xsd_sample true in
  (written_to "Equipment.schema.json" written
   ≫= get_path ["properties"; "facility"])
  = Some (PDict [("$ref", PStr "#/$defs/ObservingFacility")]) ∧
  (written_to "Equipment.schema.json" written ≫= get_path ["$defs"]) = None.
Proof. by vm_compute. Qed.

(** ** Further properties of extraction *)

(** A loop that stores, for each visited item, at most one entry in a
    dictionary leaves under each key the entry of the last item that
    has one for that key. *)
Lemma foldl_last_insert {S A K V : Type} `{Countable K}
    (proj : S → gmap K V) (step : S → A → S) (f : A → option (K * V)) :
  (∀ s a, proj (step s a) =
          match f a with
          | Some (k, v) => <[k := v]> (proj s)
          | None => proj s
          end) →
  ∀ l s k,
    proj (foldl step s l) !! k =
    match last (omap (entry_for f k) l) with
    | Some v => Some v
    | None => proj s !! k
    end.
Proof.
  intros Hstep l s k. induction l as [|a l IH] using rev_ind; [done|].
  rewrite foldl_snoc, Hstep, omap_app. simpl. unfold entry_for at 2.
  destruct (f a) as [[k' v]|]; simpl.
  - destruct (decide (k' = k)) as [->|Hne].
    + by rewrite last_snoc, lookup_insert_eq.
    + rewrite app_nil_r, lookup_insert_ne by done. apply IH.
  - rewrite app_nil_r. apply IH.
Qed.

Lemma entry_for_Some {A K V : Type} `{EqDecision K} (f : A → option (K * V))
    (k : K) (a : A) (v : V) :
  entry_for f k a = Some v ↔ f a = Some (k, v).
Proof.
  unfold entry_for. destruct (f a) as [[k' v']|]; simpl; [|done].
  case_decide; naive_solver.
Qed.

Lemma entry_for_None {A K V : Type} `{EqDecision K} (f : A → option (K * V))
    (k : K) (a : A) :
  entry_for f k a = None ↔ ∀ v, f a ≠ Some (k, v).
Proof.
  unfold entry_for. destruct (f a) as [[k' v']|]; simpl; [|done].
  case_decide; naive_solver.
Qed.

(** The relational reading of [foldl_last_insert] from an empty
    dictionary. *)
Lemma last_entry_spec {A K V : Type} `{Countable K} (f : A → option (K * V))
    (l : list A) (k : K) (v : V) :
  last (omap (entry_for f k) l) = Some v ↔
  ∃ before a after,
    l = before ++ a :: after ∧ f a = Some (k, v) ∧
    ∀ a' v', a' ∈ after → f a' ≠ Some (k, v').
Proof.
  rewrite last_omap_Some. split.
  - intros (before & a & after & -> & Ha%entry_for_Some & Hafter).
    exists before, a, after. split; [done|]. split; [done|].
    intros a' v' Hin. by apply entry_for_None, Hafter.
  - intros (before & a & after & -> & Ha & Hafter).
    exists before, a, after. split; [done|].
    split; [by apply entry_for_Some|].
    intros a' Hin. apply entry_for_None. intros v'. by apply Hafter.
Qed.

Lemma class_child_class_ids (cid : option string) (m : model) (sub : element) :
  class_ids (class_child cid m sub) = class_ids m.
Proof. unfold class_child. by repeat case_match. Qed.

Lemma class_child_inheritance (cid : option string) (m : model)
    (sub : element) :
  inheritance (class_child cid m sub) = inheritance m.
Proof. unfold class_child. by repeat case_match. Qed.

Lemma class_child_attributes (cid : option string) (m : model)
    (sub : element) :
  attributes_by_id (class_child cid m sub) =
  match attribute_record sub with
  | Some a => alter (λ l, l ++ [a]) cid (attributes_by_id m)
  | None => attributes_by_id m
  end.
Proof.
  unfold class_child, attribute_record.
  destruct (String.eqb (localname (tag sub)) "ownedAttribute").
  - by destruct (get sub "name").
  - by repeat case_match.
Qed.

Lemma foldl_class_child_fields (cid : option string) (subs : list element)
    (m : model) :
  class_ids (foldl (class_child cid) m subs) = class_ids m ∧
  class_names_by_id (foldl (class_child cid) m subs) = class_names_by_id m ∧
  inheritance (foldl (class_child cid) m subs) = inheritance m.
Proof.
  revert m. induction subs as [|sub subs IH]; intros m; [done|]. simpl.
  destruct (IH (class_child cid m sub)) as (-> & -> & ->).
  by rewrite class_child_class_ids, class_child_class_names,
    class_child_inheritance.
Qed.

Lemma foldl_class_child_attributes (cid : option string)
    (subs : list element) (m : model) (own : list attr) :
  attributes_by_id m !! cid = Some own →
  attributes_by_id (foldl (class_child cid) m subs)
  = <[cid := own ++ omap attribute_record subs]> (attributes_by_id m).
Proof.
  revert m own. induction subs as [|sub subs IH]; intros m own Hown; simpl.
  - by rewrite app_nil_r, insert_id.
  - destruct (attribute_record sub) as [a|] eqn:Ha.
    + rewrite (IH _ (own ++ [a])).
      * rewrite class_child_attributes, Ha. apply map_eq. intros k.
        destruct (decide (k = cid)) as [->|Hne].
        -- by rewrite !lookup_insert_eq, <- app_assoc.
        -- by rewrite !lookup_insert_ne, lookup_alter_ne.
      * rewrite class_child_attributes, Ha, lookup_alter_eq, Hown. done.
    + rewrite (IH _ own).
      * by rewrite class_child_attributes, Ha.
      * by rewrite class_child_attributes, Ha.
Qed.

Lemma is_named_class_name (e : element) :
  is_named_class e = true →
  ∃ class_name, get e "name" = Some class_name ∧ class_name ≠ "" ∧
                is_class e = true.
Proof.
  unfold is_named_class. intros [Hc Ht]%andb_true_iff.
  destruct (get e "name") as [class_name|]; [|done].
  exists class_name. by rewrite <- truthy_Some.
Qed.

Lemma class_pass_step_named (m : model) (e : element) :
  class_pass_step m e =
  if is_named_class e then
    foldl (class_child (get e XMI_ID))
      (Model (<[default "" (get e "name") := get e XMI_ID]> (class_ids m))
             (<[get e XMI_ID := []]> (attributes_by_id m))
             (inheritance m)
             (<[get e XMI_ID := default "" (get e "name")]>
                (class_names_by_id m))
             (documentation_by_id m))
      (children e)
  else m.
Proof.
  unfold class_pass_step, is_named_class.
  destruct (is_class e); [|done].
  by destruct (get e "name") as [[|c s]|].
Qed.

Lemma class_pass_step_class_ids (m : model) (e : element) :
  class_ids (class_pass_step m e) =
  match class_ids_entry e with
  | Some (class_name, cid) => <[class_name := cid]> (class_ids m)
  | None => class_ids m
  end.
Proof.
  rewrite class_pass_step_named. unfold class_ids_entry.
  destruct (is_named_class e) eqn:He; [|done].
  destruct (is_named_class_name e He) as (class_name & -> & _).
  by rewrite (proj1 (foldl_class_child_fields _ _ _)).
Qed.

Lemma class_pass_step_class_names (m : model) (e : element) :
  class_names_by_id (class_pass_step m e) =
  match class_names_entry e with
  | Some (cid, class_name) => <[cid := class_name]> (class_names_by_id m)
  | None => class_names_by_id m
  end.
Proof.
  rewrite class_pass_step_named. unfold class_names_entry.
  destruct (is_named_class e) eqn:He; [|done].
  destruct (is_named_class_name e He) as (class_name & -> & _).
  by rewrite (proj1 (proj2 (foldl_class_child_fields _ _ _))).
Qed.

Lemma class_pass_step_inheritance (m : model) (e : element) :
  inheritance (class_pass_step m e) = inheritance m.
Proof.
  rewrite class_pass_step_named.
  destruct (is_named_class e); [|done].
  by rewrite (proj2 (proj2 (foldl_class_child_fields _ _ _))).
Qed.

Lemma class_pass_step_attributes (m : model) (e : element) :
  attributes_by_id (class_pass_step m e) =
  match attributes_entry e with
  | Some (cid, own) => <[cid := own]> (attributes_by_id m)
  | None => attributes_by_id m
  end.
Proof.
  rewrite class_pass_step_named. unfold attributes_entry.
  destruct (is_named_class e); [|done].
  rewrite (foldl_class_child_attributes _ _ _ []); simpl.
  - by rewrite insert_insert_eq.
  - by rewrite lookup_insert_eq.
Qed.

Lemma generalization_pass_class_ids
    (l : list (option element * element)) (m : model) :
  class_ids (foldl generalization_step m l) = class_ids m.
Proof.
  induction l as [|[p e] l IH] using rev_ind; [done|].
  rewrite foldl_snoc. unfold generalization_step at 1.
  destruct (String.eqb (localname (tag e)) "generalization"); [|done].
  repeat case_match; done.
Qed.

(** X1. The attribute list recorded for a registered class element,
    when no later registered class element has its identifier, is the
    list of the records of its [ownedAttribute] children that carry a
    [name], in document order; children without [name] and children
    with another tag are left out. *)
Theorem attributes_of_class (xmi_root cls : element)
    (before after : list element) :
  iter xmi_root = before ++ cls :: after →
  is_named_class cls = true →
  (∀ other, other ∈ after → is_named_class other = true →
            get other XMI_ID ≠ get cls XMI_ID) →
  attributes_by_id (extract_model xmi_root) !! get cls XMI_ID
  = Some (omap attribute_record (children cls)).
Proof.
  intros Hiter Hcls Hafter. unfold extract_model.
  rewrite generalization_pass_attributes.
  rewrite (foldl_last_insert attributes_by_id class_pass_step
             attributes_entry class_pass_step_attributes).
  assert (last (omap (entry_for attributes_entry (get cls XMI_ID))
                     (iter xmi_root))
          = Some (omap attribute_record (children cls))) as ->; [|done].
  apply last_entry_spec. exists before, cls, after. split; [done|].
  unfold attributes_entry. rewrite Hcls. split; [done|].
  intros other own Hin. destruct (is_named_class other) eqn:Ho; [|done].
  intros [= Hid _]. by eapply Hafter.
Qed.

Lemma attributes_of_class_witness :
  attributes_by_id (extract_model xmi_reused_identifier) !! Some "K"
  = Some [plain_attribute "range"].
Proof.
  apply (attributes_of_class xmi_reused_identifier
           (uml_class [(XMI_ID, "K"); ("name", "Sensor")]
              [node "ownedAttribute" [("name", "range")] []])
           (take 5 (iter xmi_reused_identifier))
           (drop 6 (iter xmi_reused_identifier))).
  - reflexivity.
  - reflexivity.
  - intros other Hin.
    repeat (apply elem_of_cons in Hin as [->|Hin]; [by vm_compute|]).
    by apply elem_of_nil in Hin.
Defined.

(** The first class of the sample loses its attributes to the second
    one, which has the same identifier; an attribute keeps only the six
    attributes that are read, so [lowerValue] has no effect. *)
Example attributes_reused_identifier :
  let m := extract_model xmi_reused_identifier in
  map a_name (collect_all_attributes m "Equipment") = ["range"] ∧
  omap attribute_record
    [node "ownedAttribute" [("name", "model"); ("lowerValue", "1")] []]
  = [plain_attribute "model"].
Proof. by vm_compute. Qed.

(** X2. [class_ids] binds a name to the identifier of the last
    registered class element of that name, and [class_names_by_id]
    binds an identifier to the name of the last registered class
    element of that identifier (document order); elements that are not
    classes, and classes without a non-empty name, bind nothing. *)
Theorem class_tables_last_element (xmi_root : element) :
  let m := extract_model xmi_root in
  (∀ class_name cid,
     class_ids m !! class_name = Some cid ↔
     ∃ before e after,
       iter xmi_root = before ++ e :: after ∧
       is_named_class e = true ∧
       get e "name" = Some class_name ∧ get e XMI_ID = cid ∧
       ∀ e', e' ∈ after → is_named_class e' = true →
             get e' "name" ≠ Some class_name) ∧
  (∀ cid class_name,
     class_names_by_id m !! cid = Some class_name ↔
     ∃ before e after,
       iter xmi_root = before ++ e :: after ∧
       is_named_class e = true ∧
       get e "name" = Some class_name ∧ get e XMI_ID = cid ∧
       ∀ e', e' ∈ after → is_named_class e' = true →
             get e' XMI_ID ≠ cid).
Proof.
  intros m. unfold m, extract_model. split.
  - intros class_name cid.
    rewrite generalization_pass_class_ids.
    rewrite (foldl_last_insert class_ids class_pass_step class_ids_entry
               class_pass_step_class_ids).
    simpl. rewrite lookup_empty.
    destruct (last _) as [v|] eqn:Hlast.
    + apply last_entry_spec in Hlast
        as (before & e & after & Hiter & He & Hafter).
      unfold class_ids_entry in He.
      destruct (is_named_class e) eqn:Hnamed; [|done].
      destruct (get e "name") as [n|] eqn:Hn; [|done].
      injection He as -> <-. split.
      * intros [= <-]. exists before, e, after.
        repeat (split; [done|]). intros e' Hin He' Hn'.
        eapply (Hafter e' (get e' XMI_ID) Hin).
        unfold class_ids_entry. by rewrite He', Hn'.
      * intros (before' & e2 & after' & Hiter' & He2 & Hn2 & Hid2 & Hafter').
        assert (last (omap (entry_for class_ids_entry class_name)
                           (iter xmi_root)) = Some cid) as Hlast'.
        { apply last_entry_spec. exists before', e2, after'.
          split; [done|]. unfold class_ids_entry.
          rewrite He2, Hn2, Hid2. split; [done|].
          intros e' v' Hin. destruct (is_named_class e') eqn:He'; [|done].
          destruct (get e' "name") as [n'|] eqn:Hn'; [|done]. simpl.
          intros [= -> _]. by eapply Hafter'. }
        assert (last (omap (entry_for class_ids_entry class_name)
                           (iter xmi_root)) = Some (get e XMI_ID)) as Hlast''.
        { apply last_entry_spec. exists before, e, after.
          split; [done|]. unfold class_ids_entry.
          by rewrite Hnamed, Hn. }
        congruence.
    + split; [done|].
      intros (before' & e2 & after' & Hiter' & He2 & Hn2 & Hid2 & Hafter').
      assert (last (omap (entry_for class_ids_entry class_name)
                         (iter xmi_root)) = Some cid) as Hlast'; [|congruence].
      apply last_entry_spec. exists before', e2, after'.
      split; [done|]. unfold class_ids_entry.
      rewrite He2, Hn2, Hid2. split; [done|].
      intros e' v' Hin. destruct (is_named_class e') eqn:He'; [|done].
      destruct (get e' "name") as [n'|] eqn:Hn'; [|done]. simpl.
      intros [= -> _]. by eapply Hafter'.
  - intros cid class_name.
    rewrite generalization_pass_class_names.
    rewrite (foldl_last_insert class_names_by_id class_pass_step
               class_names_entry class_pass_step_class_names).
    simpl. rewrite lookup_empty.
    assert (∀ v, last (omap (entry_for class_names_entry cid) (iter xmi_root))
                 = Some v ↔
                 ∃ before e after,
                   iter xmi_root = before ++ e :: after ∧
                   is_named_class e = true ∧
                   get e "name" = Some v ∧ get e XMI_ID = cid ∧
                   ∀ e', e' ∈ after → is_named_class e' = true →
                         get e' XMI_ID ≠ cid) as Hspec.
    { intros v. rewrite last_entry_spec. split.
      - intros (before & e & after & Hiter & He & Hafter).
        unfold class_names_entry in He.
        destruct (is_named_class e) eqn:Hnamed; [|done].
        destruct (get e "name") as [n|] eqn:Hn; [|done].
        injection He as <- <-. exists before, e, after.
        repeat (split; [done|]). intros e' Hin He' Hid'.
        destruct (is_named_class_name e' He') as (n' & Hn' & _).
        eapply (Hafter e' n' Hin). unfold class_names_entry.
        by rewrite He', Hn', Hid'.
      - intros (before & e & after & Hiter & He & Hn & Hid & Hafter).
        exists before, e, after. split; [done|]. unfold class_names_entry.
        rewrite He, Hn, Hid. split; [done|].
        intros e' v' Hin. destruct (is_named_class e') eqn:He'; [|done].
        destruct (get e' "name") as [n'|] eqn:Hn'; [|done]. simpl.
        intros [= Hid' _]. by eapply Hafter. }
    destruct (last _) as [v|] eqn:Hlast.
    + rewrite <- Hspec. split; congruence.
    + rewrite <- Hspec. split; congruence.
Qed.

Lemma class_pass_step_consistent (m : model) (e : element) :
  registration_consistent m → registration_consistent (class_pass_step m e).
Proof.
  intros (Hdom & Hids & Hnames). unfold registration_consistent.
  rewrite class_pass_step_class_ids, class_pass_step_class_names,
    class_pass_step_attributes.
  unfold class_ids_entry, class_names_entry, attributes_entry.
  destruct (is_named_class e) eqn:He; [|done].
  destruct (is_named_class_name e He) as (n & -> & Hn & _). simpl.
  split; [|split].
  - intros cid. destruct (decide (get e XMI_ID = cid)) as [->|Hne].
    + by rewrite !lookup_insert_eq.
    + rewrite !lookup_insert_ne by done. apply Hdom.
  - intros class_name cid.
    destruct (decide (n = class_name)) as [->|Hne].
    + rewrite lookup_insert_eq. intros [= <-]. by rewrite lookup_insert_eq.
    + rewrite lookup_insert_ne by done. intros [? Hsome]%Hids.
      split; [done|]. destruct (decide (get e XMI_ID = cid)) as [->|Hne'].
      * by rewrite lookup_insert_eq.
      * by rewrite lookup_insert_ne.
  - intros cid class_name.
    destruct (decide (get e XMI_ID = cid)) as [->|Hne].
    + rewrite lookup_insert_eq. intros [= <-]. by rewrite lookup_insert_eq.
    + rewrite lookup_insert_ne by done. intros [? Hsome]%Hnames.
      split; [done|]. destruct (decide (n = class_name)) as [->|Hne'].
      * by rewrite lookup_insert_eq.
      * by rewrite lookup_insert_ne.
Qed.

(** X3. After extraction the class tables are consistent: an
    identifier has a name exactly when it has an attribute list; a
    registered name is not empty and its identifier has an attribute
    list; the name recorded for an identifier is not empty and is a
    registered name.  This holds for every tree, also when names or
    identifiers are reused or absent. *)
Theorem extract_model_consistent (xmi_root : element) :
  registration_consistent (extract_model xmi_root).
Proof.
  unfold extract_model, registration_consistent.
  rewrite generalization_pass_class_ids, generalization_pass_class_names,
    generalization_pass_attributes.
  generalize (iter xmi_root). intros l.
  induction l as [|e l IH] using rev_ind.
  - simpl. split; [|split]; intros *; rewrite ?lookup_empty;
      [split; by intros [? ?] | done..].
  - rewrite foldl_snoc. by apply class_pass_step_consistent.
Qed.

(** ** Inheritance edges *)

Lemma generalization_step_edge (m : model) (pe : option element * element) :
  inheritance (generalization_step m pe) =
  match generalization_edge pe with
  | Some (sub, sup) => <[sub := sup]> (inheritance m)
  | None => inheritance m
  end.
Proof.
  destruct pe as [parent e]. unfold generalization_step, generalization_edge.
  destruct (String.eqb (localname (tag e)) "generalization"); [|done].
  destruct (if Str.truthy (get e "owner") then _ else _) as [sub|];
    simpl; [|done].
  destruct (get e "general") as [sup|]; simpl; [|done].
  by destruct (_ && _).
Qed.

Lemma generalization_edge_spec (parent : option element) (e : element)
    (sub sup : string) :
  generalization_edge (parent, e) = Some (sub, sup)
  ↔ is_generalization parent e sub sup.
Proof.
  unfold generalization_edge, is_generalization.
  destruct (String.eqb_spec (localname (tag e)) "generalization")
    as [Htag|Htag]; [|naive_solver].
  destruct (get e "owner") as [[|c owner]|];
    destruct (get e "general") as [[|c' general]|];
    destruct parent as [p|];
    try destruct (get p XMI_ID) as [[|c'' pid]|] eqn:Hp;
    cbn; unfold get, XMI_ID in *; naive_solver.
Qed.

(** The pairs of [iter_with_parent] are the elements of [iter], each
    with the element it is a child of. *)
Lemma iter_with_parent_children (root : element) :
  ∀ q parent e,
    (parent, e) ∈ iter_with_parent q root →
    (parent = q ∧ e = root) ∨
    ∃ p, parent = Some p ∧ p ∈ iter root ∧ e ∈ children p.
Proof.
  induction root as [t a x cs IH] using element_tree_ind.
  intros q parent e. simpl.
  intros [[= -> ->]|Hin]%elem_of_cons; [by left|]. right.
  apply list_elem_of_In, in_flat_map in Hin as (c & Hc & Hin).
  apply list_elem_of_In in Hc, Hin.
  rewrite Forall_forall in IH.
  destruct (IH c Hc _ _ _ Hin) as [[-> ->]|(p & -> & Hp & He)].
  - eexists. split; [done|]. split; [by left | done].
  - exists p. split; [done|]. split; [|done]. right.
    apply list_elem_of_In, in_flat_map. exists c.
    by rewrite <- !list_elem_of_In.
Qed.

(** X4. [inheritance] binds a subclass identifier to the [general] of
    the last generalization element for that subclass, in document
    order.  The subclass of a generalization is its non-empty [owner]
    and otherwise the identifier of the element that contains it; a
    generalization whose subclass or superclass is absent or empty
    records nothing, so that no key and no value of the table is
    empty. *)
Theorem inheritance_last_generalization (xmi_root : element)
    (sub sup : string) :
  (inheritance (extract_model xmi_root) !! sub = Some sup ↔
   ∃ before parent e after,
     iter_with_parent None xmi_root = before ++ (parent, e) :: after ∧
     is_generalization parent e sub sup ∧
     ∀ parent' e' sup',
       (parent', e') ∈ after → ¬ is_generalization parent' e' sub sup') ∧
  (inheritance (extract_model xmi_root) !! sub = Some sup →
   sub ≠ "" ∧ sup ≠ "") ∧
  (∀ parent e,
     (parent, e) ∈ iter_with_parent None xmi_root →
     match parent with
     | Some p => p ∈ iter xmi_root ∧ e ∈ children p
     | None => e = xmi_root
     end).
Proof.
  assert (inheritance (extract_model xmi_root) !! sub = Some sup ↔
          ∃ before parent e after,
            iter_with_parent None xmi_root = before ++ (parent, e) :: after ∧
            is_generalization parent e sub sup ∧
            ∀ parent' e' sup',
              (parent', e') ∈ after → ¬ is_generalization parent' e' sub sup')
    as Hspec.
  { unfold extract_model.
    rewrite (foldl_last_insert inheritance generalization_step
               generalization_edge generalization_step_edge).
    assert (inheritance (foldl class_pass_step empty_model (iter xmi_root))
            = ∅) as ->.
    { generalize (iter xmi_root). intros l.
      induction l as [|e l IH] using rev_ind; [done|].
      by rewrite foldl_snoc, class_pass_step_inheritance. }
    rewrite lookup_empty.
    transitivity (last (omap (entry_for generalization_edge sub)
                             (iter_with_parent None xmi_root)) = Some sup).
    { by destruct (last _). }
    rewrite last_entry_spec. split.
    - intros (before & [parent e] & after & Hiter & He & Hafter).
      exists before, parent, e, after. split; [done|].
      split; [by apply generalization_edge_spec|].
      intros parent' e' sup' Hin Hgen%generalization_edge_spec.
      by eapply Hafter.
    - intros (before & parent & e & after & Hiter & He & Hafter).
      exists before, (parent, e), after. split; [done|].
      split; [by apply generalization_edge_spec|].
      intros [parent' e'] sup' Hin Hgen%generalization_edge_spec.
      by eapply Hafter. }
  split; [exact Hspec|split].
  - intros (_ & _ & _ & _ & _ & (_ & _ & ? & ? & _) & _)%Hspec. done.
  - intros parent e Hin.
    destruct (iter_with_parent_children _ _ _ _ Hin)
      as [[-> ->]|(p & -> & ? & ?)]; done.
Qed.

Example inheritance_sample :
  inheritance (extract_model xmi_sample) !! "EQ" = Some "BASE" ∧
  inheritance (extract_model xmi_reused_identifier) !! "K" = Some "Z" ∧
  inheritance (extract_model xmi_cyclic) !! "A" = Some "B".
Proof. by vm_compute. Qed.

(** ** Further properties of the type hints *)

Lemma unprefixed_spec (ty : string) :
  (Str.after_first ":" ty = None ∧ unprefixed ty = ty) ∨
  ∃ p, ty = p +:+ String ":" (unprefixed ty) ∧ Str.after_first ":" p = None.
Proof.
  unfold unprefixed.
  destruct (Str.after_first ":" ty) as [rest|] eqn:Hrest; [|by left].
  right. by apply after_first_spec in Hrest.
Qed.

(** X5. The type map binds [name] to [t] exactly when some element
    whose tag ends with "element" carries [name] and a [type] that is
    [t] once everything up to its first ":" is removed, with [t] not
    empty, and no later element in document order writes an entry for
    [name].  Hence no value of the map is empty, and a type without ":"
    is kept whole. *)
Theorem build_type_map_from_xsd_last_hint (xsd_root : element)
    (name t : string) :
  (build_type_map_from_xsd xsd_root !! name = Some t ↔
   ∃ before e after,
     iter xsd_root = before ++ e :: after ∧
     contributes e name t ∧
     ∀ e' t', e' ∈ after → ¬ contributes e' name t') ∧
  (build_type_map_from_xsd xsd_root !! name = Some t → t ≠ "") ∧
  (∀ e ty, contributes e name t → get e "type" = Some ty →
           (Str.after_first ":" ty = None ∧ t = ty) ∨
           ∃ p, ty = p +:+ String ":" t ∧ Str.after_first ":" p = None).
Proof.
  assert (build_type_map_from_xsd xsd_root !! name = Some t ↔
          ∃ before e after,
            iter xsd_root = before ++ e :: after ∧
            contributes e name t ∧
            ∀ e' t', e' ∈ after → ¬ contributes e' name t') as Hspec.
  { rewrite build_type_map_from_xsd_lookup, last_omap_Some. split.
    - intros (before & e & after & Hiter & He%hint_for_Some & Hafter).
      exists before, e, after. split; [done|]. split; [done|].
      intros e' t' Hin Hc%hint_for_Some. by rewrite (Hafter e' Hin) in Hc.
    - intros (before & e & after & Hiter & He & Hafter).
      exists before, e, after. split; [done|].
      split; [by apply hint_for_Some|].
      intros e' Hin. destruct (hint_for name e') as [t'|] eqn:Ht'; [|done].
      apply hint_for_Some in Ht'. by destruct (Hafter e' t' Hin). }
  split; [exact Hspec|split].
  - intros (_ & _ & _ & _ & (_ & _ & _ & _ & _ & ?) & _)%Hspec. done.
  - intros e ty (_ & _ & ty' & Hty & -> & _) Hty'.
    rewrite Hty in Hty'. injection Hty' as ->.
    destruct (unprefixed_spec ty) as [[? ?]|?]; [by left | by right].
Qed.

Example build_type_map_from_xsd_foreign :
  build_type_map_from_xsd xsd_foreign !! "station" = Some "b:c" ∧
  build_type_map_from_xsd xsd_foreign !! "height" = Some "decimal" ∧
  build_type_map_from_xsd xsd_foreign !! "width" = None ∧
  build_type_map_from_xsd xsd_foreign !! "unit" = None.
Proof. by vm_compute. Qed.

(** ** Further properties of flattening *)

Lemma walk_deterministic inh visited cid chain1 chain2 :
  walk inh visited cid chain1 → walk inh visited cid chain2 → chain1 = chain2.
Proof.
  intros Hw1. revert chain2.
  induction Hw1 as [visited cid Hstop | visited c chain Ht Hout _ IH];
    intros chain2 Hw2.
  - inversion Hw2 as [|? c ? Ht Hout]; subst; [done|].
    destruct Hstop as [Hf | (c' & [= <-] & Hin)]; [congruence | done].
  - inversion Hw2 as [? ? Hstop|]; subst.
    + destruct Hstop as [Hf | (c' & [= <-] & Hin)]; [congruence | done].
    + f_equal. by apply IH.
Qed.

Lemma collect_all_attributes_along (m : model) (class_name : string)
    (chain : list string) :
  walk (inheritance m) ∅ (class_id_of m class_name) chain →
  collect_all_attributes m class_name = flat_map (own_attributes m) chain.
Proof.
  intros Hw.
  destruct (walk_from_start m (class_id_of m class_name)) as (chain' & Hw' & Hl).
  rewrite (walk_deterministic _ _ _ _ _ Hw Hw').
  by apply walk_collect_all_attributes.
Qed.

(** X6. Without inheritance, flattening is the identity: for a class
    name registered with a non-empty identifier that has no recorded
    (non-empty) superclass, the flattened list is the class's own
    attribute list, in declaration order. *)
Theorem collect_all_attributes_no_superclass (m : model)
    (class_name c : string) :
  class_ids m !! class_name = Some (Some c) →
  c ≠ "" →
  Str.truthy (inheritance m !! c) = false →
  collect_all_attributes m class_name
  = default [] (attributes_by_id m !! Some c).
Proof.
  intros Hc Hne Hsup.
  rewrite (collect_all_attributes_along m class_name [c]).
  - simpl. by rewrite app_nil_r.
  - unfold class_id_of. rewrite Hc. simpl.
    constructor; [by apply truthy_Some | apply not_elem_of_empty |].
    constructor. by left.
Qed.

Lemma collect_all_attributes_no_superclass_witness :
  collect_all_attributes (extract_model xmi_sample) "ObservingFacility"
  = default [] (attributes_by_id (extract_model xmi_sample) !! Some "OF").
Proof.
  apply (collect_all_attributes_no_superclass
           (extract_model xmi_sample) "ObservingFacility" "OF").
  - by vm_compute.
  - done.
  - by vm_compute.
Defined.

(** X7. One level of inheritance: for a class [c] whose superclass [d]
    is another non-empty identifier, itself without recorded
    superclass or with [c] or [d] as superclass, the flattened list is
    the own attributes of [c] followed by those of [d]; a superclass
    that is not registered contributes nothing. *)
Theorem collect_all_attributes_one_superclass (m : model)
    (class_name c d : string) :
  class_ids m !! class_name = Some (Some c) →
  c ≠ "" → d ≠ "" → d ≠ c →
  inheritance m !! c = Some d →
  (Str.truthy (inheritance m !! d) = false ∨
   inheritance m !! d = Some c ∨ inheritance m !! d = Some d) →
  collect_all_attributes m class_name
  = default [] (attributes_by_id m !! Some c)
    ++ default [] (attributes_by_id m !! Some d).
Proof.
  intros Hc Hne Hd Hdc Hsup Hend.
  rewrite (collect_all_attributes_along m class_name [c; d]).
  - simpl. by rewrite app_nil_r.
  - unfold class_id_of. rewrite Hc. simpl.
    constructor; [by apply truthy_Some | apply not_elem_of_empty |].
    rewrite Hsup.
    constructor; [by apply truthy_Some | |].
    { rewrite elem_of_union, elem_of_singleton.
      intros [?|?%not_elem_of_empty]; done. }
    constructor. destruct Hend as [?|[->| ->]]; [by left|right..].
    + exists c. split; [done|].
      rewrite !elem_of_union, !elem_of_singleton. auto.
    + exists d. split; [done|].
      rewrite !elem_of_union, !elem_of_singleton. auto.
Qed.

Lemma collect_all_attributes_one_superclass_witness :
  collect_all_attributes (extract_model xmi_cyclic) "Equipment"
  = default [] (attributes_by_id (extract_model xmi_cyclic) !! Some "A")
    ++ default [] (attributes_by_id (extract_model xmi_cyclic) !! Some "B").
Proof.
  apply (collect_all_attributes_one_superclass
           (extract_model xmi_cyclic) "Equipment" "A" "B").
  - by vm_compute.
  - done.
  - done.
  - done.
  - by vm_compute.
  - right. left. by vm_compute.
Defined.

(** The superclass of [Equipment] in [model_two_levels] is not
    registered: the walk visits it and collects nothing there. *)
Example collect_all_attributes_two_levels :
  map a_name (collect_all_attributes model_two_levels "Sensor")
  = ["range"; "serialNumber"] ∧
  collect_all_attributes model_two_levels "Asset" = [].
Proof. by vm_compute. Qed.

(** ** Further properties of property maps *)

Lemma dict_has_keys (k : string) (d : list (string * pyval)) :
  dict_has k d = true ↔ k ∈ keys d.
Proof.
  unfold dict_has, keys. induction d as [|[k' x] d IH]; simpl.
  - split; [done | by intros ?%elem_of_nil].
  - rewrite orb_true_iff, IH, elem_of_cons, String.eqb_eq. naive_solver.
Qed.

Lemma dict_set_keys (k : string) (v : pyval) (d : list (string * pyval)) :
  keys (dict_set k v d) = if dict_has k d then keys d else keys d ++ [k].
Proof.
  unfold dict_has, keys. induction d as [|[k' x] d IH]; simpl; [done|].
  destruct (String.eqb_spec k' k) as [->|Hne]; simpl; [done|].
  rewrite IH. by destruct (existsb _ d).
Qed.

Lemma dict_set_keys_NoDup (k : string) (v : pyval)
    (d : list (string * pyval)) :
  NoDup (keys d) → NoDup (keys (dict_set k v d)).
Proof.
  intros Hd. rewrite dict_set_keys.
  destruct (dict_has k d) eqn:Hk; [done|].
  apply NoDup_app. split; [done|]. split; [|apply NoDup_singleton].
  intros x Hx ->%list_elem_of_singleton.
  apply dict_has_keys in Hx. congruence.
Qed.

Lemma attrs_keys_NoDup (m : model) (xsd_type_map : gmap string string)
    (exclude : option (gset string)) (l : list attr) (st : assembly) :
  NoDup (keys (schema_props st)) →
  NoDup (keys (schema_props (foldl (attrs_step m xsd_type_map exclude) st l))).
Proof.
  revert st. induction l as [|a l IH]; intros st Hst; [done|]. simpl.
  apply IH. destruct (included exclude a) eqn:Ha.
  - rewrite attrs_step_property by done. by apply dict_set_keys_NoDup.
  - by rewrite attrs_step_included.
Qed.

Lemma included_spec (exclude : option (gset string)) (a : attr) :
  included exclude a = true ↔
  a_name a ≠ "" ∧ ∀ ex, exclude = Some ex → a_name a ∉ ex.
Proof.
  unfold included, not_excluded.
  rewrite andb_true_iff, truthy_Some.
  destruct exclude as [ex|]; [rewrite bool_decide_eq_true|]; naive_solver.
Qed.

(** X8. The keys of a property map are distinct, and they are the
    names of the attributes of the list that are included: a name is a
    key exactly when some attribute has it, it is not empty, and it is
    not in the exclusion set. *)
Theorem attrs_to_json_schema_keys (m : model)
    (xsd_type_map : gmap string string) (attr_list : list attr)
    (exclude : option (gset string))
    (tbl : gmap string (list (string * pyval))) :
  let props :=
    schema_props (attrs_to_json_schema m xsd_type_map attr_list exclude tbl) in
  NoDup (keys props) ∧
  ∀ name,
    name ∈ keys props ↔
    ∃ a, a ∈ attr_list ∧ a_name a = name ∧ name ≠ "" ∧
         ∀ ex, exclude = Some ex → name ∉ ex.
Proof.
  simpl. split.
  - apply attrs_keys_NoDup. constructor.
  - intros name. rewrite <- dict_has_keys.
    unfold attrs_to_json_schema. rewrite attrs_has. simpl.
    rewrite orb_false_r, existsb_exists. split.
    + intros (a & Hin & [Hincl Heq%String.eqb_eq]%andb_true_iff).
      apply included_spec in Hincl as [? ?]. subst name.
      exists a. by rewrite list_elem_of_In.
    + intros (a & Hin & <- & Hne & Hex). exists a.
      rewrite <- list_elem_of_In. split; [done|].
      rewrite String.eqb_refl, andb_true_r. by apply included_spec.
Qed.

(** X9. When a name is declared more than once in the attribute list,
    the last included declaration decides the fragment: for an
    attribute without documentation that no later included attribute
    of the same name follows, the property of its name is its inferred
    fragment. *)
Theorem attrs_to_json_schema_last_declaration (m : model)
    (xsd_type_map : gmap string string) (exclude : option (gset string))
    (tbl : gmap string (list (string * pyval)))
    (before after : list attr) (a : attr) :
  included exclude a = true →
  (∀ b, b ∈ after → included exclude b = true → a_name b ≠ a_name a) →
  Str.truthy (documentation_by_id m !! a_id a) = false →
  dict_get (a_name a)
    (schema_props (attrs_to_json_schema m xsd_type_map
                     (before ++ a :: after) exclude tbl))
  = Some (infer_json_type m xsd_type_map a).
Proof.
  intros Hincl Hafter Hdoc.
  destruct (attrs_last_declaration m xsd_type_map exclude before after a
              (Assembly [] [] tbl) Hincl Hafter) as (tbl1 & Hget).
  unfold attrs_to_json_schema. rewrite Hget.
  by rewrite property_of_undocumented.
Qed.

Lemma attrs_to_json_schema_last_declaration_witness :
  let m := extract_model xmi_redeclared in
  dict_get "host"
    (schema_props (attrs_to_json_schema m ∅
                     (collect_all_attributes m "Equipment") None
                     xsd_to_json_type))
  = Some (PDict [("type", PStr "string")]).
Proof.
  intros m.
  assert (collect_all_attributes m "Equipment"
          = [Attr "host" (Some "OF") (Some "composite") (Some "EQ.host")
                  (Some "1") (Some "1");
             Attr "note" None None (Some "EQ.note") None (Some "*")]
            ++ Attr "host" None None (Some "BASE.host") None (Some "1") :: [])
    as -> by (by vm_compute).
  pose proof
    (attrs_to_json_schema_last_declaration m ∅ None xsd_to_json_type
       [Attr "host" (Some "OF") (Some "composite") (Some "EQ.host")
             (Some "1") (Some "1");
        Attr "note" None None (Some "EQ.note") None (Some "*")]
       []
       (Attr "host" None None (Some "BASE.host") None (Some "1"))) as Hlast.
  apply Hlast.
  - reflexivity.
  - intros b Hb. destruct (proj1 (elem_of_nil b) Hb).
  - by vm_compute.
Defined.

(** The subclass declares [host] as a mandatory reference to the
    facility; what is written is the string of the superclass's
    declaration, still required. *)
Example redeclared_host :
  let written :=
    parse_ea_xmi_to_geojson_schema xmi_redeclared xsd_sample true in
  (written_to "Equipment.schema.json" written
   ≫= get_path ["properties"; "host"])
  = Some (PDict [("type", PStr "string")]) ∧
  (written_to "Equipment.schema.json" written ≫= get_path ["required"])
  = Some (PList [PStr "host"]).
Proof. by vm_compute. Qed.

(** ** The static table during assembly *)

Lemma same_up_to_description_refl
    (tbl : gmap string (list (string * pyval))) :
  same_up_to_description tbl tbl.
Proof. intros k. by destruct (tbl !! k). Qed.

Lemma same_up_to_description_trans
    (tbl0 tbl1 tbl2 : gmap string (list (string * pyval))) :
  same_up_to_description tbl0 tbl1 →
  same_up_to_description tbl1 tbl2 →
  same_up_to_description tbl0 tbl2.
Proof.
  intros H01 H12 k. specialize (H01 k). specialize (H12 k).
  destruct (tbl0 !! k), (tbl1 !! k), (tbl2 !! k); try done.
  intros key Hkey. by rewrite H12, H01.
Qed.

Lemma set_description_same (doc : string) (prop : pyval)
    (tbl : gmap string (list (string * pyval))) :
  same_up_to_description tbl (set_description doc prop tbl).2.
Proof.
  destruct prop as [| | | |k]; simpl;
    try apply same_up_to_description_refl.
  intros k'. destruct (decide (k = k')) as [->|Hne].
  - rewrite lookup_alter_eq. destruct (tbl !! k') as [d|]; simpl; [|done].
    intros key Hkey. by apply dict_get_set_ne.
  - rewrite lookup_alter_ne by done. by destruct (tbl !! k').
Qed.

Lemma property_of_same (m : model) (xsd_type_map : gmap string string)
    (a : attr) (tbl : gmap string (list (string * pyval))) :
  same_up_to_description tbl (property_of m xsd_type_map a tbl).2.
Proof.
  unfold property_of. destruct (Str.truthy _).
  - apply set_description_same.
  - apply same_up_to_description_refl.
Qed.

Lemma attrs_same (m : model) (xsd_type_map : gmap string string)
    (exclude : option (gset string)) (l : list attr) (st : assembly) :
  same_up_to_description (table st)
    (table (foldl (attrs_step m xsd_type_map exclude) st l)).
Proof.
  revert st. induction l as [|a l IH]; intros st; simpl.
  - apply same_up_to_description_refl.
  - eapply same_up_to_description_trans; [|apply IH].
    destruct (included exclude a) eqn:Ha.
    + rewrite attrs_step_property by done. apply property_of_same.
    + rewrite attrs_step_included by done. apply same_up_to_description_refl.
Qed.

Lemma class_assemblies_same (m : model) (xsd_type_map : gmap string string)
    (obs equip obsrv : assembly) :
  class_assemblies m xsd_type_map = (obs, equip, obsrv) →
  same_up_to_description xsd_to_json_type (table obsrv).
Proof.
  intros (-> & -> & ->)%class_assemblies_facility.
  unfold attrs_to_json_schema.
  eapply same_up_to_description_trans; [|apply attrs_same]. simpl.
  eapply same_up_to_description_trans; [|apply attrs_same]. simpl.
  apply (attrs_same _ _ _ _ (Assembly [] [] xsd_to_json_type)).
Qed.

(** X10. While the three property maps are built, the dictionaries of
    the static table only ever gain or change a [description]: the
    table has the same keys when the documents are written as when the
    run starts, and every dictionary has its initial entries for every
    key other than [description]. *)
Theorem static_table_keeps_types (xmi_root xsd_root : element)
    (obs equip obsrv : assembly) :
  class_assemblies (extract_model xmi_root) (build_type_map_from_xsd xsd_root)
  = (obs, equip, obsrv) →
  ∀ k,
    match xsd_to_json_type !! k, table obsrv !! k with
    | Some d0, Some d =>
        ∀ key, key ≠ "description" → dict_get key d = dict_get key d0
    | None, None => True
    | _, _ => False
    end.
Proof. apply class_assemblies_same. Qed.

Lemma static_table_keeps_types_witness :
  match xsd_to_json_type !! "string",
        table (class_assemblies (extract_model xmi_shared_identifier)
                 (build_type_map_from_xsd xsd_strings)).2 !! "string" with
  | Some d0, Some d =>
      ∀ key, key ≠ "description" → dict_get key d = dict_get key d0
  | None, None => True
  | _, _ => False
  end.
Proof.
  apply (static_table_keeps_types xmi_shared_identifier xsd_strings
           (class_assemblies (extract_model xmi_shared_identifier)
              (build_type_map_from_xsd xsd_strings)).1.1
           (class_assemblies (extract_model xmi_shared_identifier)
              (build_type_map_from_xsd xsd_strings)).1.2).
  by destruct (class_assemblies _ _) as [[? ?] ?].
Defined.

(** In that run the dictionary of [string] has gained a description. *)
Example static_table_description :
  table (class_assemblies (extract_model xmi_shared_identifier)
           (build_type_map_from_xsd xsd_strings)).2 !! "string"
  = Some [("type", PStr "string"); ("description", PStr "An instrument.")].
Proof. by vm_compute. Qed.

(** ** The files of the split mode *)

Lemma get_path_single (k : string) (d : list (string * pyval)) :
  get_path [k] (PDict d) = dict_get k d.
Proof. simpl. by destruct (dict_get k d). Qed.

(** The file of a class holds, under the name of an attribute that is
    the last included declaration of that name, the property of that
    attribute as the final table shows it. *)
Lemma class_file_property (xmi_root xsd_root : element) (cls : string)
    (exclude : option (gset string)) (before after : list attr) (a : attr) :
  let m := extract_model xmi_root in
  let xsd_type_map := build_type_map_from_xsd xsd_root in
  (cls, exclude) ∈ schema_classes →
  collect_all_attributes m cls = before ++ a :: after →
  included exclude a = true →
  (∀ b, b ∈ after → included exclude b = true → a_name b ≠ a_name a) →
  ∃ doc tbl tbl1,
    (class_file cls, doc)
      ∈ parse_ea_xmi_to_geojson_schema xmi_root xsd_root true ∧
    same_up_to_description xsd_to_json_type tbl ∧
    get_path ["properties"; a_name a] doc
    = Some (dump tbl (property_of m xsd_type_map a tbl1).1).
Proof.
  intros m xsd_type_map Hcls Hlist Hincl Hafter.
  destruct (parse_split xmi_root xsd_root)
    as (obs & equip & obsrv & Hca & Hsplit).
  destruct (class_assemblies_schema_class _ _ _ _ _ _ _ Hca Hcls)
    as (st & tbl0 & Hst & Hdef).
  fold m xsd_type_map in Hdef. rewrite Hlist in Hdef.
  destruct (attrs_last_declaration m xsd_type_map exclude before after a
              (Assembly [] [] tbl0) Hincl Hafter) as (tbl1 & Hget).
  fold (attrs_to_json_schema m xsd_type_map (before ++ a :: after)
          exclude tbl0) in Hget.
  rewrite <- Hdef in Hget.
  exists (dump (table obsrv)
            (class_schema cls (schema_props st) (required st))),
    (table obsrv), tbl1.
  split; [|split].
  - rewrite Hsplit. unfold class_file.
    repeat (apply elem_of_cons in Hst as [[= -> ->]|Hst]);
      [| | |by apply elem_of_nil in Hst].
    + by left.
    + right. by left.
    + right. right. by left.
  - by eapply class_assemblies_same.
  - change ["properties"; a_name a] with (["properties"] ++ [a_name a]).
    rewrite get_path_app, class_schema_properties, bind_Some.
    by rewrite get_path_property, Hget.
Qed.

Lemma description_field_fresh (m : model) (xsd_type_map : gmap string string)
    (a : attr) (tbl : gmap string (list (string * pyval)))
    (d : list (string * pyval)) :
  infer_json_type m xsd_type_map a = PDict d →
  dict_has "description" d = false →
  (property_of m xsd_type_map a tbl).1 = PDict (d ++ description_field m a).
Proof.
  intros Hd Hnone. unfold property_of, description_field. rewrite Hd.
  destruct (documentation_by_id m !! a_id a) as [doc|]; simpl;
    [|by rewrite app_nil_r].
  destruct doc as [|c doc]; simpl; [by rewrite app_nil_r|].
  f_equal. clear Hd. induction d as [|[k x] d IH]; simpl in *; [done|].
  unfold dict_has in Hnone. simpl in Hnone.
  apply orb_false_iff in Hnone as [-> Hnone]. f_equal. by apply IH.
Qed.

Lemma infer_json_type_untyped (m : model) (xsd_type_map : gmap string string)
    (a : attr) :
  is_composite_reference m a = false →
  xsd_type_map !! a_name a = None →
  infer_json_type m xsd_type_map a = PDict [("type", PStr "string")].
Proof.
  unfold infer_json_type. fold (is_composite_reference m a).
  by intros -> ->.
Qed.

Lemma infer_json_type_primitive (m : model)
    (xsd_type_map : gmap string string) (a : attr) (t : string) :
  is_composite_reference m a = false →
  xsd_type_map !! a_name a = Some t →
  infer_json_type m xsd_type_map a
  = with_multiplicity (single_valued a) (primitive_fragment t).
Proof.
  unfold infer_json_type, with_multiplicity, single_valued,
    primitive_fragment.
  fold (is_composite_reference m a). intros -> ->.
  by destruct (Str.equals (a_upper a) "1").
Qed.

(** X11. In split mode, an attribute that is not a reference to a
    registered class and whose name has no type hint is written as the
    string fragment [{"type": "string"}], whatever its [upper] bound
    (never as an array), with the [description] that the documentation
    of its identifier adds. *)
Theorem split_mode_untyped_attribute (xmi_root xsd_root : element)
    (cls : string) (exclude : option (gset string))
    (before after : list attr) (a : attr) :
  let m := extract_model xmi_root in
  (cls, exclude) ∈ schema_classes →
  collect_all_attributes m cls = before ++ a :: after →
  included exclude a = true →
  (∀ b, b ∈ after → included exclude b = true → a_name b ≠ a_name a) →
  is_composite_reference m a = false →
  build_type_map_from_xsd xsd_root !! a_name a = None →
  ∃ doc,
    (class_file cls, doc)
      ∈ parse_ea_xmi_to_geojson_schema xmi_root xsd_root true ∧
    get_path ["properties"; a_name a] doc
    = Some (PDict (("type", PStr "string") :: description_field m a)).
Proof.
  intros m Hcls Hlist Hincl Hafter Hcomp Hhint.
  destruct (class_file_property xmi_root xsd_root cls exclude before after a
              Hcls Hlist Hincl Hafter) as (doc & tbl & tbl1 & Hin & _ & Hget).
  exists doc. split; [done|]. rewrite Hget.
  rewrite (description_field_fresh _ _ _ _ [("type", PStr "string")]).
  - simpl. do 3 f_equal. unfold description_field.
    destruct (documentation_by_id _ !! _) as [[|c doc']|]; done.
  - by apply infer_json_type_untyped.
  - done.
Qed.

Lemma split_mode_untyped_attribute_witness :
  ∃ doc,
    (class_file "Equipment", doc)
      ∈ parse_ea_xmi_to_geojson_schema xmi_redeclared xsd_sample true ∧
    get_path ["properties"; "note"] doc
    = Some (PDict [("type", PStr "string")]).
Proof.
  pose proof
    (split_mode_untyped_attribute xmi_redeclared xsd_sample "Equipment" None
       [Attr "host" (Some "OF") (Some "composite") (Some "EQ.host")
             (Some "1") (Some "1")]
       [Attr "host" None None (Some "BASE.host") None (Some "1")]
       (Attr "note" None None (Some "EQ.note") None (Some "*"))) as Huntyped.
  apply Huntyped.
  - right. by left.
  - by vm_compute.
  - reflexivity.
  - intros b ->%list_elem_of_singleton. by vm_compute.
  - by vm_compute.
  - by vm_compute.
Defined.

(** X12. In split mode, an attribute that is not a reference to a
    registered class and whose name has the type hint [t] is written
    with the entries of the static table for [t], or those of the
    string fragment when [t] is not a key of the table: as the fragment
    itself when [upper] is "1", and otherwise as the [items] of an
    array.  Descriptions written through other attributes do not
    change these entries. *)
Theorem split_mode_primitive_attribute (xmi_root xsd_root : element)
    (cls : string) (exclude : option (gset string))
    (before after : list attr) (a : attr) (t : string) :
  let m := extract_model xmi_root in
  (cls, exclude) ∈ schema_classes →
  collect_all_attributes m cls = before ++ a :: after →
  included exclude a = true →
  (∀ b, b ∈ after → included exclude b = true → a_name b ≠ a_name a) →
  is_composite_reference m a = false →
  build_type_map_from_xsd xsd_root !! a_name a = Some t →
  ∃ doc,
    (class_file cls, doc)
      ∈ parse_ea_xmi_to_geojson_schema xmi_root xsd_root true ∧
    (single_valued a = false →
     get_path ["properties"; a_name a; "type"] doc = Some (PStr "array")) ∧
    ∀ key,
      key ≠ "description" →
      get_path (["properties"; a_name a]
                ++ (if single_valued a then [] else ["items"]) ++ [key]) doc
      = dict_get key
          (default [("type", PStr "string")] (xsd_to_json_type !! t)).
Proof.
  intros m Hcls Hlist Hincl Hafter Hcomp Hhint.
  destruct (class_file_property xmi_root xsd_root cls exclude before after a
              Hcls Hlist Hincl Hafter)
    as (doc & tbl & tbl1 & Hin & Hsame & Hget).
  exists doc. split; [done|].
  assert (infer_json_type m (build_type_map_from_xsd xsd_root) a
          = with_multiplicity (single_valued a) (primitive_fragment t))
    as Hinfer.
  { by apply infer_json_type_primitive. }
  (* the dictionary that is written for the primitive fragment *)
  assert (∃ d, dump tbl (primitive_fragment t) = PDict d ∧
               ∀ key, key ≠ "description" →
                      dict_get key d
                      = dict_get key (default [("type", PStr "string")]
                                        (xsd_to_json_type !! t)))
    as (d & Hd & Hkeys).
  { unfold primitive_fragment. specialize (Hsame t).
    case_bool_decide as Ht.
    - destruct Ht as [d0 Hd0]. rewrite Hd0 in Hsame |- *.
      destruct (tbl !! t) as [d|] eqn:Htbl; [|done].
      exists d. simpl. by rewrite Htbl.
    - destruct (xsd_to_json_type !! t) as [d0|] eqn:Hd0; [by destruct Ht|].
      by exists [("type", PStr "string")]. }
  subst m. split.
  - intros Hsingle.
    change ["properties"; a_name a; "type"]
      with (["properties"; a_name a] ++ ["type"]).
    rewrite get_path_app, Hget, bind_Some.
    unfold property_of. rewrite Hinfer, Hsingle. unfold with_multiplicity.
    by destruct (Str.truthy _).
  - intros key Hkey. rewrite !get_path_app, Hget, !bind_Some.
    unfold property_of. rewrite Hinfer. unfold with_multiplicity.
    destruct (single_valued a).
    + simpl app.
      destruct (Str.truthy (documentation_by_id _ !! a_id a));
        [|simpl fst; rewrite Hd, get_path_single; by apply Hkeys].
      unfold primitive_fragment in *. case_bool_decide.
      * simpl set_description. simpl fst.
        rewrite Hd, get_path_single. by apply Hkeys.
      * cbn [set_description fst].
        rewrite get_path_property, dict_get_set_ne by done.
        rewrite <- (Hkeys key Hkey). injection Hd as <-.
        cbn [dict_get map]. by destruct (String.eqb "type" key).
    + assert (∀ prop : pyval * gmap string (list (string * pyval)),
                prop.1 = PDict [("type", PStr "array");
                                ("items", primitive_fragment t)] ∨
                (∃ v, prop.1 = PDict [("type", PStr "array");
                                      ("items", primitive_fragment t);
                                      ("description", v)]) →
                get_path ["items"] (dump tbl prop.1) = Some (PDict d))
        as Hitems.
      { intros prop [-> | (v & ->)]; simpl; by rewrite Hd. }
      rewrite get_path_app, Hitems, bind_Some, get_path_single;
        [by apply Hkeys|].
      destruct (Str.truthy _); simpl; eauto.
Qed.

Lemma split_mode_primitive_attribute_witness :
  let a := Attr "model" None None (Some "EQ.model") None (Some "1") in
  ∃ doc,
    (class_file "Equipment", doc)
      ∈ parse_ea_xmi_to_geojson_schema xmi_shared_identifier xsd_strings true ∧
    (single_valued a = false →
     get_path ["properties"; a_name a; "type"] doc = Some (PStr "array")) ∧
    ∀ key,
      key ≠ "description" →
      get_path (["properties"; a_name a]
                ++ (if single_valued a then [] else ["items"]) ++ [key]) doc
      = dict_get key
          (default [("type", PStr "string")] (xsd_to_json_type !! "string")).
Proof.
  intros a.
  apply (split_mode_primitive_attribute xmi_shared_identifier xsd_strings
           "Equipment" None
           [Attr "serialNumber" None None (Some "EQ") None (Some "1")]
           [] a "string").
  - right. by left.
  - by vm_compute.
  - reflexivity.
  - intros b Hb. by apply elem_of_nil in Hb.
  - by vm_compute.
  - by vm_compute.
Defined.

(** ** The two output modes *)

Lemma dump_names (tbl : gmap string (list (string * pyval)))
    (names : list string) :
  dump tbl (PList (map PStr names)) = PList (map PStr names).
Proof.
  simpl. f_equal. induction names as [|n names IH]; simpl; [done|].
  by rewrite IH.
Qed.

Lemma class_schema_required (tbl : gmap string (list (string * pyval)))
    (name : string) (props : list (string * pyval)) (req : list string) :
  get_path ["required"] (dump tbl (class_schema name props req))
  = Some (PList (map PStr req)).
Proof.
  change (get_path ["required"] (dump tbl (class_schema name props req)))
    with (Some (dump tbl (PList (map PStr req)))).
  by rewrite dump_names.
Qed.

Lemma unified_document_facility_required
    (tbl : gmap string (list (string * pyval))) (obs equip obsrv : assembly) :
  get_path ["$defs"; "ObservingFacility"; "required"]
           (unified_document tbl obs equip obsrv)
  = Some (PList (map PStr (required obs))).
Proof.
  change (get_path ["$defs"; "ObservingFacility"; "required"]
            (unified_document tbl obs equip obsrv))
    with (Some (dump tbl (PList (map PStr (required obs))))).
  by rewrite dump_names.
Qed.

Lemma excluded_not_key (m : model) (xsd_type_map : gmap string string)
    (exclude : option (gset string)) (l : list attr)
    (tbl : gmap string (list (string * pyval))) (name : string) :
  not_excluded exclude name = false →
  dict_get name
    (schema_props (attrs_to_json_schema m xsd_type_map l exclude tbl)) = None.
Proof.
  intros Hex. apply eq_None_not_Some. rewrite <- dict_has_get.
  unfold attrs_to_json_schema. rewrite attrs_has. simpl.
  rewrite orb_false_r. apply not_true_iff_false.
  induction l as [|a l IH]; simpl; [done|]. rewrite IH, orb_false_r.
  destruct (String.eqb_spec (a_name a) name) as [<-|]; [|apply andb_false_r].
  unfold included. by rewrite Hex, andb_false_r.
Qed.

(** X13. The attribute [geospatialLocation] of the facility is left
    out in both modes: the facility's properties have no such key, in
    its file of the split mode and in its definition of the unified
    document, and the name is not in the facility's required list,
    which is the same list in both modes. *)
Theorem facility_location_excluded (xmi_root xsd_root : element) :
  ∃ facility unified req,
    (class_file "ObservingFacility", facility)
      ∈ parse_ea_xmi_to_geojson_schema xmi_root xsd_root true ∧
    parse_ea_xmi_to_geojson_schema xmi_root xsd_root false
      = [(OutputFile, unified)] ∧
    get_path ["properties"; "geospatialLocation"] facility = None ∧
    get_path ["$defs"; "ObservingFacility"; "properties";
              "geospatialLocation"] unified = None ∧
    get_path ["required"] facility = Some (PList (map PStr req)) ∧
    get_path ["$defs"; "ObservingFacility"; "required"] unified
      = Some (PList (map PStr req)) ∧
    "geospatialLocation" ∉ req.
Proof.
  destruct (parse_split xmi_root xsd_root)
    as (obs & equip & obsrv & Hca & Hsplit).
  destruct (parse_unified xmi_root xsd_root)
    as (obs' & equip' & obsrv' & Hca' & Hunified).
  rewrite Hca in Hca'. injection Hca' as <- <- <-.
  pose proof Hca as (Hobs & _ & _)%class_assemblies_facility.
  assert (not_excluded (Some {["geospatialLocation"]}) "geospatialLocation"
          = false) as Hex.
  { simpl. apply bool_decide_eq_false. intros Hnot. apply Hnot.
    by apply elem_of_singleton. }
  assert (dict_get "geospatialLocation" (schema_props obs) = None) as Hkey
    by (rewrite Hobs; by apply excluded_not_key).
  eexists _, _, (required obs).
  split; [rewrite Hsplit; by left|]. split; [exact Hunified|].
  split; [|split; [|split; [|split]]].
  - change ["properties"; "geospatialLocation"]
      with (["properties"] ++ ["geospatialLocation"]).
    by rewrite get_path_app, class_schema_properties, bind_Some,
      get_path_property, Hkey.
  - change ["$defs"; "ObservingFacility"; "properties"; "geospatialLocation"]
      with (["$defs"; "ObservingFacility"; "properties"]
            ++ ["geospatialLocation"]).
    rewrite get_path_app, unified_document_facility, bind_Some,
      get_path_property, override_collections_other by done.
    by rewrite Hkey.
  - apply class_schema_required.
  - apply unified_document_facility_required.
  - rewrite Hobs, required_elem_of.
    intros (a & _ & Ha & Hincl & _). unfold included in Hincl.
    rewrite Ha, Hex, andb_false_r in Hincl. done.
Qed.

(** X14. The required list of a class is written in its file of the
    split mode, where it holds the names of its attributes with a
    [lower] bound other than "0"; in the unified document only the
    facility has a required list: the definitions of Equipment and
    Observation have none, whatever the bounds of their attributes. *)
Theorem unified_mode_required (xmi_root xsd_root : element) (cls : string) :
  cls ∈ ["Equipment"; "Observation"] →
  ∃ file unified req,
    (class_file cls, file)
      ∈ parse_ea_xmi_to_geojson_schema xmi_root xsd_root true ∧
    parse_ea_xmi_to_geojson_schema xmi_root xsd_root false
      = [(OutputFile, unified)] ∧
    get_path ["required"] file = Some (PList (map PStr req)) ∧
    (∀ name,
       name ∈ req ↔
       ∃ a, a ∈ collect_all_attributes (extract_model xmi_root) cls ∧
            a_name a = name ∧ name ≠ "" ∧ lower_requires a = true) ∧
    get_path ["$defs"; cls; "required"] unified = None.
Proof.
  intros Hcls.
  destruct (parse_split xmi_root xsd_root)
    as (obs & equip & obsrv & Hca & Hsplit).
  destruct (parse_unified xmi_root xsd_root)
    as (obs' & equip' & obsrv' & Hca' & Hunified).
  rewrite Hca in Hca'. injection Hca' as <- <- <-.
  pose proof Hca as (_ & Hequip & Hobsrv)%class_assemblies_facility.
  assert (∀ l tbl name,
            name ∈ required
                     (attrs_to_json_schema (extract_model xmi_root)
                        (build_type_map_from_xsd xsd_root) l None tbl) ↔
            ∃ a, a ∈ l ∧ a_name a = name ∧ name ≠ "" ∧
                 lower_requires a = true) as Hreq.
  { intros l tbl name. rewrite required_elem_of. split.
    - intros (a & ? & ? & [? _]%included_spec & ?). exists a.
      repeat split; congruence.
    - intros (a & ? & ? & ? & ?). exists a.
      repeat (split; [done|]). split; [|done].
      apply included_spec. split; [congruence | done]. }
  repeat (apply elem_of_cons in Hcls as [->|Hcls]);
    [| |by apply elem_of_nil in Hcls].
  - eexists _, _, (required equip).
    split; [rewrite Hsplit; right; by left|]. split; [exact Hunified|].
    split; [apply class_schema_required|].
    split; [rewrite Hequip; apply Hreq | reflexivity].
  - eexists _, _, (required obsrv).
    split; [rewrite Hsplit; right; right; by left|]. split; [exact Hunified|].
    split; [apply class_schema_required|].
    split; [rewrite Hobsrv; apply Hreq | reflexivity].
Qed.

Lemma unified_mode_required_witness :
  ∃ file unified req,
    (class_file "Equipment", file)
      ∈ parse_ea_xmi_to_geojson_schema xmi_redeclared xsd_sample true ∧
    parse_ea_xmi_to_geojson_schema xmi_redeclared xsd_sample false
      = [(OutputFile, unified)] ∧
    get_path ["required"] file = Some (PList (map PStr req)) ∧
    (∀ name,
       name ∈ req ↔
       ∃ a, a ∈ collect_all_attributes (extract_model xmi_redeclared)
                  "Equipment" ∧
            a_name a = name ∧ name ≠ "" ∧ lower_requires a = true) ∧
    get_path ["$defs"; "Equipment"; "required"] unified = None.
Proof.
  apply (unified_mode_required xmi_redeclared xsd_sample "Equipment").
  by left.
Defined.

Lemma dict_has_absorb (d : list (string * pyval)) (k name : string) :
  dict_has k d = true →
  String.eqb k name || dict_has name d = dict_has name d.
Proof.
  intros Hk. destruct (String.eqb_spec k name) as [Heq|]; [|done].
  simpl. by rewrite <- Heq, Hk.
Qed.

Lemma override_collections_has (d : list (string * pyval)) (name : string) :
  dict_has name (override_collections d) = dict_has name d.
Proof.
  unfold override_collections.
  destruct (dict_has "equipment" d) eqn:He.
  - destruct (dict_has "observation" _) eqn:Ho; rewrite ?dict_has_set.
    + rewrite dict_has_set in Ho.
      change (dict_has "observation" d = true) in Ho.
      by rewrite (dict_has_absorb d "equipment"), dict_has_absorb.
    + by rewrite dict_has_absorb.
  - destruct (dict_has "observation" d) eqn:Ho; rewrite ?dict_has_set; [|done].
    by rewrite dict_has_absorb.
Qed.

Lemma property_written (tbl : gmap string (list (string * pyval)))
    (props : list (string * pyval)) (name : string) :
  is_Some (get_path [name] (dump tbl (PDict props)))
  ↔ dict_has name props = true.
Proof.
  rewrite get_path_property, dict_has_get.
  destruct (dict_get name props); simpl; [|by split; intros [? ?]].
  split; eauto.
Qed.

(** X15. Both modes describe the same properties.  For each of the
    three classes, a name is a property of the class in its file of the
    split mode exactly when it is one in its definition of the unified
    document, and the two fragments are the same, except for the
    [equipment] and [observation] properties of the facility. *)
Theorem modes_agree (xmi_root xsd_root : element) (cls : string)
    (exclude : option (gset string)) (name : string) :
  (cls, exclude) ∈ schema_classes →
  ∃ file unified,
    (class_file cls, file)
      ∈ parse_ea_xmi_to_geojson_schema xmi_root xsd_root true ∧
    parse_ea_xmi_to_geojson_schema xmi_root xsd_root false
      = [(OutputFile, unified)] ∧
    (is_Some (get_path ["$defs"; cls; "properties"; name] unified)
     ↔ is_Some (get_path ["properties"; name] file)) ∧
    (¬ (cls = "ObservingFacility" ∧ name ∈ ["equipment"; "observation"]) →
     get_path ["$defs"; cls; "properties"; name] unified
     = get_path ["properties"; name] file).
Proof.
  intros Hcls.
  destruct (parse_split xmi_root xsd_root)
    as (obs & equip & obsrv & Hca & Hsplit).
  destruct (parse_unified xmi_root xsd_root)
    as (obs' & equip' & obsrv' & Hca' & Hunified).
  rewrite Hca in Hca'. injection Hca' as <- <- <-.
  change ["$defs"; cls; "properties"; name]
    with (["$defs"; cls; "properties"] ++ [name]).
  change ["properties"; name] with (["properties"] ++ [name]).
  unfold schema_classes in Hcls.
  repeat (apply elem_of_cons in Hcls as [[= -> ->]|Hcls]);
    [| | |by apply elem_of_nil in Hcls]; eexists _, _.
  - split; [rewrite Hsplit; by left|]. split; [exact Hunified|].
    rewrite !get_path_app, class_schema_properties,
      unified_document_facility, !bind_Some.
    split.
    + by rewrite !property_written, override_collections_has.
    + intros Hnot. rewrite !get_path_property.
      rewrite override_collections_other; [done|..];
        intros ->; apply Hnot; (split; [done|]); [by left | right; by left].
  - split; [rewrite Hsplit; right; by left|]. split; [exact Hunified|].
    by rewrite !get_path_app, class_schema_properties,
      unified_document_equipment.
  - split; [rewrite Hsplit; right; right; by left|]. split; [exact Hunified|].
    by rewrite !get_path_app, class_schema_properties,
      unified_document_observation.
Qed.

Lemma modes_agree_witness :
  ∃ file unified,
    (class_file "Equipment", file)
      ∈ parse_ea_xmi_to_geojson_schema xmi_sample xsd_sample true ∧
    parse_ea_xmi_to_geojson_schema xmi_sample xsd_sample false
      = [(OutputFile, unified)] ∧
    (is_Some (get_path ["$defs"; "Equipment"; "properties"; "elevation"]
                       unified)
     ↔ is_Some (get_path ["properties"; "elevation"] file)) ∧
    (¬ ("Equipment" = "ObservingFacility"
        ∧ "elevation" ∈ ["equipment"; "observation"]) →
     get_path ["$defs"; "Equipment"; "properties"; "elevation"] unified
     = get_path ["properties"; "elevation"] file).
Proof.
  apply (modes_agree xmi_sample xsd_sample "Equipment" None "elevation").
  right. by left.
Defined.

(** ** Classes that are not in the model *)

Lemma collect_all_attributes_unregistered (m : model) (class_name : string) :
  Str.truthy (class_id_of m class_name) = false →
  collect_all_attributes m class_name = [].
Proof.
  intros Hid. rewrite (collect_all_attributes_along m class_name []); [done|].
  constructor. by left.
Qed.

(** X16. A class that the model does not register (or registers with an
    absent or empty identifier) is no error: its file of the split mode
    and its definition in the unified document are written with empty
    properties, and the file with an empty required list. *)
Theorem unregistered_class_schema (xmi_root xsd_root : element)
    (cls : string) (exclude : option (gset string)) :
  (cls, exclude) ∈ schema_classes →
  Str.truthy (class_id_of (extract_model xmi_root) cls) = false →
  ∃ file unified,
    (class_file cls, file)
      ∈ parse_ea_xmi_to_geojson_schema xmi_root xsd_root true ∧
    parse_ea_xmi_to_geojson_schema xmi_root xsd_root false
      = [(OutputFile, unified)] ∧
    get_path ["properties"] file = Some (PDict []) ∧
    get_path ["required"] file = Some (PList []) ∧
    get_path ["$defs"; cls; "properties"] unified = Some (PDict []).
Proof.
  intros Hcls Hid.
  destruct (parse_split xmi_root xsd_root)
    as (obs & equip & obsrv & Hca & Hsplit).
  destruct (parse_unified xmi_root xsd_root)
    as (obs' & equip' & obsrv' & Hca' & Hunified).
  rewrite Hca in Hca'. injection Hca' as <- <- <-.
  pose proof Hca as (Hobs & Hequip & Hobsrv)%class_assemblies_facility.
  pose proof (collect_all_attributes_unregistered _ _ Hid) as Hnil.
  unfold schema_classes in Hcls.
  repeat (apply elem_of_cons in Hcls as [[= -> ->]|Hcls]);
    [| | |by apply elem_of_nil in Hcls]; eexists _, _.
  - rewrite Hnil in Hobs.
    split; [rewrite Hsplit; by left|]. split; [exact Hunified|].
    rewrite class_schema_properties, class_schema_required,
      unified_document_facility. by rewrite Hobs.
  - rewrite Hnil in Hequip.
    split; [rewrite Hsplit; right; by left|]. split; [exact Hunified|].
    rewrite class_schema_properties, class_schema_required,
      unified_document_equipment. by rewrite Hequip.
  - rewrite Hnil in Hobsrv.
    split; [rewrite Hsplit; right; right; by left|]. split; [exact Hunified|].
    rewrite class_schema_properties, class_schema_required,
      unified_document_observation. by rewrite Hobsrv.
Qed.

Lemma unregistered_class_schema_witness :
  ∃ file unified,
    (class_file "Observation", file)
      ∈ parse_ea_xmi_to_geojson_schema xmi_sample xsd_sample true ∧
    parse_ea_xmi_to_geojson_schema xmi_sample xsd_sample false
      = [(OutputFile, unified)] ∧
    get_path ["properties"] file = Some (PDict []) ∧
    get_path ["required"] file = Some (PList []) ∧
    get_path ["$defs"; "Observation"; "properties"] unified = Some (PDict []).
Proof.
  apply (unregistered_class_schema xmi_sample xsd_sample "Observation" None).
  - right. right. by left.
  - by vm_compute.
Defined.

(** ** References between the documents *)

Lemma dict_get_is_Some_keys (k : string) (d : list (string * pyval)) :
  is_Some (dict_get k d) ↔ k ∈ keys d.
Proof. by rewrite <- dict_has_get, dict_has_keys. Qed.

(** X17. The references of the envelope resolve in both modes.  In
    split mode the [geometry] and [properties] slots of a feature refer
    to files that the same run writes.  In unified mode they point to
    definitions that the document has; its [$defs] are the four
    definitions geometry, Equipment, Observation and ObservingFacility,
    and no other. *)
Theorem envelope_references_resolve (xmi_root xsd_root : element) :
  let written := parse_ea_xmi_to_geojson_schema xmi_root xsd_root true in
  (∃ wrapper,
     written_to "FeatureCollection.schema.json" written = Some wrapper ∧
     ∀ slot, slot ∈ ["geometry"; "properties"] →
       ∃ file, get_path (feature_ref slot) wrapper = Some (PStr file) ∧
               is_Some (written_to file written)) ∧
  (∃ unified,
     parse_ea_xmi_to_geojson_schema xmi_root xsd_root false
       = [(OutputFile, unified)] ∧
     (∀ slot, slot ∈ ["geometry"; "properties"] →
        ∃ cls, get_path (feature_ref slot) unified
               = Some (PStr ("#/$defs/" +:+ cls)) ∧
               is_Some (get_path ["$defs"; cls] unified)) ∧
     ∀ cls, is_Some (get_path ["$defs"; cls] unified) ↔
            cls ∈ ["geometry"; "Equipment"; "Observation";
                   "ObservingFacility"]).
Proof.
  intros written. unfold written.
  destruct (parse_split xmi_root xsd_root)
    as (obs & equip & obsrv & Hca & ->).
  destruct (parse_unified xmi_root xsd_root)
    as (obs' & equip' & obsrv' & Hca' & ->).
  rewrite Hca in Hca'. injection Hca' as <- <- <-.
  split.
  - eexists. split; [reflexivity|]. intros slot Hslot.
    repeat (apply elem_of_cons in Hslot as [->|Hslot]);
      [| |by apply elem_of_nil in Hslot].
    + exists "geometry.schema.json". split; [reflexivity | by eexists].
    + exists "ObservingFacility.schema.json".
      split; [reflexivity | by eexists].
  - eexists. split; [reflexivity|]. split.
    + intros slot Hslot.
      repeat (apply elem_of_cons in Hslot as [->|Hslot]);
        [| |by apply elem_of_nil in Hslot].
      * exists "geometry". split; [reflexivity | by eexists].
      * exists "ObservingFacility". split; [reflexivity | by eexists].
    + intros cls.
      change ["$defs"; cls] with (["$defs"] ++ [cls]).
      rewrite get_path_app, unified_document_defs, bind_Some,
        get_path_single.
      apply dict_get_is_Some_keys.
Qed.

(** A reference to a class other than the three is written all the
    same, and the unified document has no definition for it. *)
Example dangling_reference :
  let m := extract_model xmi_redeclared in
  let a := Attr "parent" (Some "BASE") (Some "composite") None None
                (Some "1") in
  infer_json_type m ∅ a = PDict [("$ref", PStr "#/$defs/Base")] ∧
  (snd <$> head (parse_ea_xmi_to_geojson_schema xmi_redeclared xsd_sample
                   false)) ≫= get_path ["$defs"; "Base"] = None.
Proof. by vm_compute. Qed.

(** ** Recorded documentation *)

Section StripFacts.

Variable table : list (list ascii).
Hypothesis table_nonempty : ∀ w, w ∈ table → w ≠ [].

Lemma drop_prefix_Some (w s r : list ascii) :
  Str.drop_prefix w s = Some r ↔ s = w ++ r.
Proof.
  revert s. induction w as [|b w IH]; intros s; simpl.
  { split; [by intros [= ->] | by intros ->]. }
  destruct s as [|c s]; [done|].
  destruct (Ascii.eqb b c) eqn:Hbc.
  - apply Ascii.eqb_eq in Hbc as ->. rewrite IH.
    split; [by intros -> | by intros [= ->]].
  - split; [done|]. intros [= -> _]. by rewrite Ascii.eqb_refl in Hbc.
Qed.

Lemma skip_one_Some (s r : list ascii) :
  Str.skip_one table s = Some r → ∃ w, w ∈ table ∧ s = w ++ r.
Proof using Type.
  clear table_nonempty. induction table as [|w t IH]; simpl; [done|].
  destruct (Str.drop_prefix w s) as [r'|] eqn:Hw.
  - intros [= ->]. apply drop_prefix_Some in Hw.
    exists w. split; [by left | done].
  - intros (w' & Hin & Hs)%IH. exists w'. split; [by right | done].
Qed.

Lemma skip_one_is_Some (w s r : list ascii) :
  w ∈ table → s = w ++ r → is_Some (Str.skip_one table s).
Proof using Type.
  clear table_nonempty. intros Hin Hs.
  induction table as [|w' t IH]; simpl.
  { by apply elem_of_nil in Hin. }
  destruct (Str.drop_prefix w' s) as [r'|] eqn:Hw; [done|].
  apply elem_of_cons in Hin as [->|Hin]; [|by apply IH].
  apply (proj2 (drop_prefix_Some _ _ _)) in Hs. congruence.
Qed.

Lemma skip_one_app (s z : list ascii) :
  is_Some (Str.skip_one table s) → is_Some (Str.skip_one table (s ++ z)).
Proof using Type.
  intros [r (w & Hin & ->)%skip_one_Some].
  apply (skip_one_is_Some w _ (r ++ z)); [done|]. by rewrite app_assoc.
Qed.

Lemma skip_one_shorter (s r : list ascii) :
  Str.skip_one table s = Some r → length r < length s.
Proof using table_nonempty.
  intros (w & Hin & ->)%skip_one_Some. apply table_nonempty in Hin.
  rewrite length_app. destruct w; [done|]. simpl. lia.
Qed.

Lemma strip_loop_suffix (n : nat) (s : list ascii) :
  ∃ p, s = p ++ Str.strip_loop table n s.
Proof using Type.
  revert s. induction n as [|n IH]; intros s; simpl; [by exists []|].
  destruct (Str.skip_one table s) as [r|] eqn:Hs; [|by exists []].
  apply skip_one_Some in Hs as (w & _ & ->).
  destruct (IH r) as [p Hp]. exists (w ++ p).
  by rewrite <- app_assoc, <- Hp.
Qed.

Lemma strip_loop_done (n : nat) (s : list ascii) :
  length s ≤ n → Str.skip_one table (Str.strip_loop table n s) = None.
Proof using table_nonempty.
  revert s. induction n as [|n IH]; intros s Hn; simpl.
  - destruct (Str.skip_one table s) as [r|] eqn:Hs; [|done].
    apply skip_one_shorter in Hs. lia.
  - destruct (Str.skip_one table s) as [r|] eqn:Hs; [|done].
    apply IH. apply skip_one_shorter in Hs. lia.
Qed.

Lemma lstrip_bytes_done (s : list ascii) :
  Str.skip_one table (Str.lstrip_bytes table s) = None.
Proof using table_nonempty. by apply strip_loop_done. Qed.

Lemma lstrip_bytes_fixed (s : list ascii) :
  Str.skip_one table s = None → Str.lstrip_bytes table s = s.
Proof using Type.
  intros Hs. unfold Str.lstrip_bytes.
  destruct (length s); simpl; [done | by rewrite Hs].
Qed.

Hypothesis table_prefix_free : prefix_free table = true.

Lemma prefix_free_inv (w1 w2 r1 r2 : list ascii) :
  w1 ∈ table → w2 ∈ table → w1 ++ r1 = w2 ++ r2 → r1 = r2.
Proof using table_prefix_free.
  clear table_nonempty. intros H1 H2 Heq.
  assert (∀ v1 v2 k, v1 ∈ table → v2 ∈ table → v1 = v2 ++ k → k = [])
    as Hfree.
  { intros v1 v2 k Hv1%list_elem_of_In Hv2%list_elem_of_In Hk.
    unfold prefix_free in table_prefix_free.
    rewrite forallb_forall in table_prefix_free.
    specialize (table_prefix_free v1 Hv1).
    rewrite forallb_forall in table_prefix_free.
    specialize (table_prefix_free v2 Hv2).
    apply (proj2 (drop_prefix_Some _ _ _)) in Hk.
    rewrite Hk in table_prefix_free. by destruct k. }
  apply app_eq_inv in Heq as [(k & Hw & Hr)|(k & Hw & Hr)].
  - apply Hfree in Hw; [|done..]. by subst.
  - apply Hfree in Hw; [|done..]. by subst.
Qed.

Lemma blank_strip_loop (n : nat) (s : list ascii) :
  length s ≤ n → blank table s → Str.strip_loop table n s = [].
Proof using table_nonempty table_prefix_free.
  revert s. induction n as [|n IH]; intros s Hn Hs.
  { simpl. destruct s; [done | simpl in Hn; lia]. }
  simpl. destruct (Str.skip_one table s) as [r|] eqn:Hskip.
  - destruct Hs as [|w s0 Hw Hs0].
    { apply skip_one_shorter in Hskip. simpl in Hskip. lia. }
    pose proof (skip_one_shorter _ _ Hskip) as Hlen.
    apply skip_one_Some in Hskip as (w' & Hw' & Heq).
    apply (prefix_free_inv _ _ _ _ Hw Hw') in Heq as <-.
    apply IH; [lia | done].
  - destruct Hs as [|w s0 Hw Hs0]; [done|].
    destruct (skip_one_is_Some w (w ++ s0) s0 Hw eq_refl) as [? ?].
    congruence.
Qed.

Lemma blank_app (a b : list ascii) :
  blank table a → blank table b → blank table (a ++ b).
Proof using Type.
  clear. intros Ha Hb. induction Ha as [|w s Hw Hs IH]; [done|].
  rewrite <- app_assoc. by constructor.
Qed.

End StripFacts.

Lemma blank_reverse (table : list (list ascii)) (s : list ascii) :
  blank table s → blank (reverse <$> table) (reverse s).
Proof.
  induction 1 as [|w s Hw Hs IH]; [constructor|].
  rewrite reverse_app. apply blank_app; [done|].
  rewrite <- (app_nil_r (reverse w)). constructor; [|constructor].
  by apply list_elem_of_fmap_2.
Qed.

Lemma whitespace_nonempty (w : list ascii) : w ∈ Str.whitespace → w ≠ [].
Proof.
  assert (forallb (λ w, match w with [] => false | _ => true end)
            Str.whitespace = true) as Hall by (by vm_compute).
  rewrite forallb_forall in Hall.
  intros Hin%list_elem_of_In%Hall ->. done.
Qed.

Lemma whitespace_reverse_nonempty (w : list ascii) :
  w ∈ reverse <$> Str.whitespace → w ≠ [].
Proof.
  intros (w' & -> & Hin%whitespace_nonempty)%list_elem_of_fmap Hw.
  apply Hin. by rewrite <- (reverse_involutive w'), Hw.
Qed.

Lemma lstrip_no_space (s : string) : starts_with_space (Str.lstrip s) = false.
Proof.
  unfold starts_with_space, Str.lstrip.
  rewrite list_ascii_of_string_of_list_ascii.
  rewrite lstrip_bytes_done by apply whitespace_nonempty.
  apply bool_decide_eq_false. by intros [? ?].
Qed.

Lemma rstrip_no_space (s : string) : ends_with_space (Str.rstrip s) = false.
Proof.
  unfold ends_with_space, Str.rstrip.
  rewrite list_ascii_of_string_of_list_ascii, reverse_involutive.
  rewrite lstrip_bytes_done by apply whitespace_reverse_nonempty.
  apply bool_decide_eq_false. by intros [? ?].
Qed.

Lemma lstrip_fixed (s : string) :
  starts_with_space s = false → Str.lstrip s = s.
Proof.
  unfold starts_with_space, Str.lstrip. intros Hs%bool_decide_eq_false.
  rewrite lstrip_bytes_fixed; [apply string_of_list_ascii_of_string|].
  destruct (Str.skip_one _ _); [|done]. by destruct Hs.
Qed.

Lemma rstrip_fixed (s : string) :
  ends_with_space s = false → Str.rstrip s = s.
Proof.
  unfold ends_with_space, Str.rstrip. intros Hs%bool_decide_eq_false.
  rewrite lstrip_bytes_fixed.
  - rewrite reverse_involutive. apply string_of_list_ascii_of_string.
  - destruct (Str.skip_one _ _); [|done]. by destruct Hs.
Qed.

(** Removing white space at the start leaves the end as it is. *)
Lemma lstrip_keeps_end (s : string) :
  ends_with_space s = false → ends_with_space (Str.lstrip s) = false.
Proof.
  unfold ends_with_space, Str.lstrip.
  intros Hs%bool_decide_eq_false. apply bool_decide_eq_false.
  intros Hy. apply Hs. rewrite list_ascii_of_string_of_list_ascii in Hy.
  unfold Str.lstrip_bytes in Hy.
  destruct (strip_loop_suffix Str.whitespace
              (length (list_ascii_of_string s)) (list_ascii_of_string s))
    as [p Hp].
  rewrite Hp, reverse_app. by apply skip_one_app.
Qed.

(** A text of white space only is stripped to the empty text. *)
Lemma strip_blank (s : string) :
  blank Str.whitespace (list_ascii_of_string s) → Str.strip s = "".
Proof.
  intros Hs%blank_reverse. unfold Str.strip.
  assert (Str.rstrip s = "") as ->; [|done].
  unfold Str.rstrip, Str.lstrip_bytes. rewrite blank_strip_loop; try done.
  apply whitespace_reverse_nonempty.
Qed.

Lemma strip_stripped (s : string) :
  starts_with_space (Str.strip s) = false ∧
  ends_with_space (Str.strip s) = false.
Proof.
  unfold Str.strip. split; [apply lstrip_no_space|].
  apply lstrip_keeps_end, rstrip_no_space.
Qed.

Lemma comment_text_stripped (sub : element) (d : string) :
  comment_text sub = Some d →
  ∃ body s, find_body sub = Some body ∧ text body = Some s ∧ d = Str.strip s.
Proof.
  unfold comment_text. destruct (String.eqb _ _); [|done].
  destruct (find_body sub) as [body|]; simpl; [|done].
  destruct (Str.truthy (text body)); [|done].
  destruct (text body) as [s|] eqn:Hs; simpl; [|done].
  intros [= <-]. by exists body, s.
Qed.

(** X18. Every recorded documentation text is the text contributed by
    an [ownedComment] child of a registered class element with that
    identifier: the stripped text of the first nested [body] of that
    child.  It neither starts nor ends with a white-space character
    (any character that [str.strip] removes), so that stripping it
    again changes nothing, and it is empty when the text of that body
    is made of white-space characters only. *)
Theorem documentation_is_stripped (xmi_root : element) (k : option string)
    (d : string) :
  documentation_by_id (extract_model xmi_root) !! k = Some d →
  (∃ cls sub body s,
     cls ∈ iter xmi_root ∧ is_named_class cls = true ∧
     get cls XMI_ID = k ∧ sub ∈ children cls ∧ comment_text sub = Some d ∧
     find_body sub = Some body ∧ text body = Some s ∧ d = Str.strip s ∧
     (blank Str.whitespace (list_ascii_of_string s) → d = "")) ∧
  starts_with_space d = false ∧ ends_with_space d = false ∧
  Str.lstrip d = d ∧ Str.rstrip d = d ∧ Str.strip d = d.
Proof.
  intros Hd.
  assert (∃ cls sub,
            cls ∈ iter xmi_root ∧ is_named_class cls = true ∧
            get cls XMI_ID = k ∧ sub ∈ children cls ∧
            comment_text sub = Some d) as Horigin.
  { revert Hd. unfold extract_model.
    rewrite generalization_pass_documentation.
    generalize (iter xmi_root). intros l. revert d.
    induction l as [|e l IH] using rev_ind; intros d; [done|].
    rewrite foldl_snoc, class_pass_step_documentation.
    destruct (is_named_class e && bool_decide (k = get e XMI_ID)) eqn:He.
    - apply andb_true_iff in He as [Hnamed Hk%bool_decide_eq_true].
      destruct (last _) as [d'|] eqn:Hlast.
      + intros [= ->].
        apply last_omap_Some in Hlast as (before & sub & after & Hc & Hs & _).
        exists e, sub. split; [apply elem_of_app; right; by left|].
        repeat (split; [done|]). split; [|done].
        rewrite Hc, elem_of_app, elem_of_cons. auto.
      + intros (cls & sub & Hin & ?)%IH. exists cls, sub.
        split; [apply elem_of_app; by left | done].
    - intros (cls & sub & Hin & ?)%IH. exists cls, sub.
      split; [apply elem_of_app; by left | done]. }
  destruct Horigin as (cls & sub & Hin & Hnamed & Hk & Hsub & Htext).
  destruct (comment_text_stripped _ _ Htext) as (body & s & Hbody & Hs & ->).
  destruct (strip_stripped s) as [Hl Hr].
  split.
  { exists cls, sub, body, s. repeat (split; [done|]). apply strip_blank. }
  split; [done|]. split; [done|].
  pose proof (lstrip_fixed _ Hl) as Hlf. pose proof (rstrip_fixed _ Hr) as Hrf.
  split; [done|]. split; [done|].
  change (Str.strip (Str.strip s)) with (Str.lstrip (Str.rstrip (Str.strip s))).
  by rewrite Hrf.
Qed.

Lemma documentation_is_stripped_witness :
  documentation_by_id (extract_model xmi_blank_comment) !! Some "EQ"
  = Some "" ∧
  (∃ cls sub body s,
     cls ∈ iter xmi_blank_comment ∧ is_named_class cls = true ∧
     get cls XMI_ID = Some "EQ" ∧ sub ∈ children cls ∧
     comment_text sub = Some "" ∧
     find_body sub = Some body ∧ text body = Some s ∧ "" = Str.strip s ∧
     (blank Str.whitespace (list_ascii_of_string s) → "" = "")) ∧
  starts_with_space "" = false ∧ ends_with_space "" = false ∧
  Str.lstrip "" = "" ∧ Str.rstrip "" = "" ∧ Str.strip "" = "".
Proof.
  split; [by vm_compute|].
  apply (documentation_is_stripped xmi_blank_comment (Some "EQ") "").
  by vm_compute.
Defined.

(** The blank comment replaces the text of the first one by the empty
    text, which attaches no description. *)
Example blank_comment_recorded :
  documentation_by_id (extract_model xmi_blank_comment) !! Some "EQ"
  = Some "" ∧
  description_field (extract_model xmi_blank_comment)
    (Attr "model" None None (Some "EQ") None None) = [].
Proof. by vm_compute. Qed.

(** White space outside the ASCII range is stripped as well: a
    no-break space (U+00A0) before and an ideographic space (U+3000)
    after the text. *)
Example strip_unicode_space :
  Str.strip
    (string_of_list_ascii
       (ascii_of_nat <$> [194; 160; 104; 105; 227; 128; 128]%nat))
  = "hi".
Proof. by vm_compute. Qed.
